(** * Retirement planner: the projection engine

    A shallow embedding of the two projection paths of the planner:

    - [RetirementCalculator.calculateFutureValue] and
      [RetirementCalculator.simulateYearly]
      (src/components/RetirementCalculator.tsx), the closed-form projector
      and the yearly table up to age 100;
    - [GrowthProjection.calculateFutureValue] and
      [GrowthProjection.generateProjections] (the GrowthProjection
      component), the duplicated closed form and the chart series.

    Numbers.  A JavaScript [number] that holds an amount, a rate or a span
    of years is modelled as an exact real ([R]): rounding error, overflow
    and the non-finite values are outside the model, except in
    [generateProjections], whose unguarded division makes non-finite values
    reachable and where they are tracked explicitly.  Ages and loop counters
    are integers ([Z]), as the sliders of the component produce them. *)

From Stdlib Require Import Reals Lra Lia ZArith List String.
Import ListNotations.

Open Scope R_scope.

(** ** JavaScript arithmetic used by the engine *)

(** [Math.pow x y].  For an integral exponent it is the iterated product
    (or its inverse); otherwise, for a positive base, [exp (y * ln x)], and
    [0] for base [0] and a positive exponent.  The cases where JavaScript
    yields [NaN] or an infinity (a negative base with a fractional exponent,
    base [0] with a negative exponent) have no real value; they never arise
    when [1 + annualRate] is positive. *)
Definition Math_pow (x y : R) : R :=
  if Req_dec_T y (IZR (Int_part y)) then powerRZ x (Int_part y)
  else if Rgt_dec x 0 then Rpower x y
  else 0.

(** [Math.round x]: the nearest integer, halves rounded up. *)
Definition Math_round (x : R) : R := IZR (Int_part (x + / 2)).

Definition Math_min (x y : R) : R := Rmin x y.
Definition Math_max (x y : R) : R := Rmax x y.

(** ** Accounts (shared by both components) *)

Inductive AccountType : Type :=
| savings
| investment
| k401
| roth_ira.

Definition AccountType_eqb (a b : AccountType) : bool :=
  match a, b with
  | savings, savings => true
  | investment, investment => true
  | k401, k401 => true
  | roth_ira, roth_ira => true
  | _, _ => false
  end.

Record Account : Type := mkAccount {
  id : string;
  name : string;
  type : AccountType;
  amount : R;
  monthlyContribution : R
}.

(** [accounts.filter(a => a.type === t).reduce((sum, a) => sum + f a, 0)] *)
Definition sumByType (t : AccountType) (f : Account -> R)
           (accounts : list Account) : R :=
  fold_left (fun sum a => sum + f a)
            (filter (fun a => AccountType_eqb (type a) t) accounts) 0.

(** ** RetirementCalculator.tsx *)

Module RetirementCalculator.

Record RetirementData : Type := mkRetirementData {
  accounts : list Account;
  currentAge : Z;
  retirementAge : Z;
  investmentRate : R;
  savingsRate : R;
  withdrawalRate : R
}.

(** One row of the yearly table, as pushed by [simulateYearly]. *)
Record Row : Type := mkRow {
  year : Z;
  age : Z;
  returnPct : R;
  salaryBasis : R;
  annualContribution : R;
  employerMatch : R;
  retirementIncome : R;
  payout : R;
  interestEarned : R;
  balance : R
}.

(** The helper of the component: lump sum compounded yearly plus the
    monthly contributions compounded monthly.  At [years <= 0] this variant
    returns the principal plus twelve contributions. *)
Definition calculateFutureValue
           (principalAmount monthlyContribution annualRate years : R) : R :=
  if Rle_dec years 0 then principalAmount + monthlyContribution * 12
  else
    let monthlyRate := annualRate / 12 in
    let months := years * 12 in
    let futureValuePrincipal :=
      principalAmount * Math_pow (1 + annualRate) years in
    let futureValueAnnuity :=
      if Rgt_dec monthlyRate 0
      then monthlyContribution * (Math_pow (1 + monthlyRate) months - 1)
           / monthlyRate
      else monthlyContribution * months in
    futureValuePrincipal + futureValueAnnuity.

Section Component.

Variable d : RetirementData.

Definition totalSavings : R := sumByType savings amount (accounts d).
Definition totalInvestments : R := sumByType investment amount (accounts d).
Definition total401k : R := sumByType k401 amount (accounts d).
Definition totalRothIRA : R := sumByType roth_ira amount (accounts d).

Definition monthlyContributionsSavings : R :=
  sumByType savings monthlyContribution (accounts d).
Definition monthlyContributionsInvestment : R :=
  sumByType investment monthlyContribution (accounts d).
Definition monthlyContributions401k : R :=
  sumByType k401 monthlyContribution (accounts d).
Definition monthlyContributionsRothIRA : R :=
  sumByType roth_ira monthlyContribution (accounts d).

Definition yearsToRetirement : Z := (retirementAge d - currentAge d)%Z.

Definition investmentGrowthRate : R := investmentRate d / 100.
Definition savingsGrowthRate : R := savingsRate d / 100.

Definition projectedInvestmentValue : R :=
  calculateFutureValue
    (totalInvestments + total401k + totalRothIRA)
    (monthlyContributionsInvestment + monthlyContributions401k
     + monthlyContributionsRothIRA)
    investmentGrowthRate
    (IZR yearsToRetirement).

Definition projectedSavings : R :=
  calculateFutureValue totalSavings monthlyContributionsSavings
                       savingsGrowthRate (IZR yearsToRetirement).

Definition projectedTotal : R := projectedInvestmentValue + projectedSavings.

(** Constants of [simulateYearly], computed before its loop. *)
Definition endAge : Z := 100.
Definition totalYears : Z := (endAge - currentAge d)%Z.
Definition annualContribSavings : R := monthlyContributionsSavings * 12.
Definition annualContribInvestment : R :=
  (monthlyContributionsInvestment + monthlyContributions401k
   + monthlyContributionsRothIRA) * 12.
Definition annualWithdrawal : R := projectedTotal * (withdrawalRate d / 100).

(** One iteration of the [for] loop at year offset [y], entered with the
    running balances [bs] (savings) and [bi] (investments): the row it
    pushes and the balances it leaves. *)
Definition loopBody (y : Z) (bs bi : R) : Row * (R * R) :=
  let age := (currentAge d + y)%Z in
  let startTotal := bs + bi in
  let blendedRate :=
    if Rgt_dec startTotal 0
    then (bs / startTotal) * savingsGrowthRate
         + (bi / startTotal) * investmentGrowthRate
    else (investmentGrowthRate + savingsGrowthRate) / 2 in
  let employerMatch := 0 in
  let '(contributions, payout, interestEarned, bs', bi') :=
    if (y <=? yearsToRetirement)%Z then
      (* pre-retirement: add contributions then grow *)
      let bs1 := bs + annualContribSavings in
      let bi1 := bi + annualContribInvestment in
      let bsAfter := bs1 * (1 + savingsGrowthRate) in
      let biAfter := bi1 * (1 + investmentGrowthRate) in
      let interestEarned := (bsAfter - bs1) + (biAfter - bi1) in
      (annualContribSavings + annualContribInvestment, 0, interestEarned,
       bsAfter, biAfter)
    else
      (* post-retirement: withdraw then grow *)
      let startTotalBefore := bs + bi in
      let withdrawal := Math_min startTotalBefore annualWithdrawal in
      let totalAfterWithdrawal := Math_max 0 (startTotalBefore - withdrawal) in
      let savingsRatio :=
        if Rgt_dec startTotalBefore 0 then bs / startTotalBefore else / 2 in
      let bsPreGrow := totalAfterWithdrawal * savingsRatio in
      let biPreGrow := totalAfterWithdrawal * (1 - savingsRatio) in
      let bsAfter := bsPreGrow * (1 + savingsGrowthRate) in
      let biAfter := biPreGrow * (1 + investmentGrowthRate) in
      let interestEarned := (bsAfter - bsPreGrow) + (biAfter - biPreGrow) in
      (0, withdrawal, interestEarned, bsAfter, biAfter) in
  (mkRow y age (blendedRate * 100) startTotal contributions employerMatch
         (if (y >? yearsToRetirement)%Z then annualWithdrawal else 0)
         payout interestEarned (bs' + bi'),
   (bs', bi')).

(** [for (let y = 0; y <= totalYears; y++)], from offset [y] on. *)
Fixpoint loop (fuel : nat) (y : Z) (bs bi : R) : list Row :=
  match fuel with
  | O => []
  | S fuel' =>
      if (y <=? totalYears)%Z then
        let '(row, (bs', bi')) := loopBody y bs bi in
        row :: loop fuel' (y + 1)%Z bs' bi'
      else []
  end.

(** The yearly table.  The loop runs [totalYears + 1] times at most, so
    that much fuel never runs out (see [loop_fuel_irrelevant]). *)
Definition simulateYearly : list Row :=
  loop (Z.to_nat (totalYears + 1)) 0%Z
       totalSavings (totalInvestments + total401k + totalRothIRA).

End Component.

(** *** Editing the list of accounts *)

(** [Omit<Account, 'id'>]: what the form hands to [addAccount]. *)
Record NewAccount : Type := mkNewAccount {
  new_name : string;
  new_type : AccountType;
  new_amount : R;
  new_monthlyContribution : R
}.

(** [addAccount]: the new account goes last, its id the clock reading
    [Date.now().toString()], here [now]. *)
Definition addAccount (now : string) (account : NewAccount)
           (accounts : list Account) : list Account :=
  accounts
  ++ [mkAccount now (new_name account) (new_type account)
                (new_amount account) (new_monthlyContribution account)].

(** [deleteAccount]: [accounts.filter(acc => acc.id !== id)]. *)
Definition deleteAccount (id0 : string) (accounts : list Account)
  : list Account :=
  filter (fun acc => negb (String.eqb (id acc) id0)) accounts.

(** [Partial<Account>]: the keys an update carries. *)
Record AccountUpdates : Type := mkAccountUpdates {
  upd_id : option string;
  upd_name : option string;
  upd_type : option AccountType;
  upd_amount : option R;
  upd_monthlyContribution : option R
}.

Definition override {A : Type} (old : A) (new : option A) : A :=
  match new with
  | Some v => v
  | None => old
  end.

(** [{ ...acc, ...updates }] *)
Definition applyUpdates (acc : Account) (updates : AccountUpdates) : Account :=
  mkAccount (override (id acc) (upd_id updates))
            (override (name acc) (upd_name updates))
            (override (type acc) (upd_type updates))
            (override (amount acc) (upd_amount updates))
            (override (monthlyContribution acc)
                      (upd_monthlyContribution updates)).

(** [updateAccount]:
    [accounts.map(acc => acc.id === id ? { ...acc, ...updates } : acc)]. *)
Definition updateAccount (id0 : string) (updates : AccountUpdates)
           (accounts : list Account) : list Account :=
  map (fun acc => if String.eqb (id acc) id0 then applyUpdates acc updates
                  else acc)
      accounts.

(** The updates the list editor sends: the amount alone, or the monthly
    contribution alone. *)
Definition amountUpdate (v : R) : AccountUpdates :=
  mkAccountUpdates None None None (Some v) None.
Definition monthlyUpdate (v : R) : AccountUpdates :=
  mkAccountUpdates None None None None (Some v).

(** [totalAmount], the "Total Today" of the summary. *)
Definition totalAmount (d : RetirementData) : R :=
  totalSavings d + totalInvestments d + total401k d + totalRothIRA d.

(** [clearAllData]; [confirmed] is the answer to [window.confirm].  It
    resets the accounts, the retirement age and the two growth rates, and
    leaves the current age and the withdrawal rate as they are. *)
Definition clearAllData (confirmed : bool) (d : RetirementData)
  : RetirementData :=
  if confirmed
  then mkRetirementData [] (currentAge d) 65 5 2 (withdrawalRate d)
  else d.

(** *** Saved state *)

(** The object [JSON.parse] returns for the saved item; a key that is
    missing (or [null]) is [None]. *)
Record SavedData : Type := mkSavedData {
  saved_accounts : option (list Account);
  saved_currentAge : option Z;
  saved_retirementAge : option Z;
  saved_investmentRate : option R;
  saved_savingsRate : option R;
  saved_withdrawalRate : option R
}.

(** What [localStorage.getItem] and [JSON.parse] yield: no item, an item
    that does not parse (the [catch] branch), or a parsed object. *)
Inductive StoredItem : Type :=
| NoItem
| Unparsable
| Parsed (parsed : SavedData).

(** [x || dflt] on numbers: a missing or zero [x] gives way to [dflt]. *)
Definition orZ (x : option Z) (dflt : Z) : Z :=
  match x with
  | Some v => if (v =? 0)%Z then dflt else v
  | None => dflt
  end.

Definition orR (x : option R) (dflt : R) : R :=
  match x with
  | Some v => if Req_dec_T v 0 then dflt else v
  | None => dflt
  end.

Definition defaultState : RetirementData :=
  mkRetirementData [] 30 65 5 2 4.

Definition loadInitialState (item : StoredItem) : RetirementData :=
  match item with
  | Parsed parsed =>
      mkRetirementData
        (override [] (saved_accounts parsed))
        (orZ (saved_currentAge parsed) 30)
        (orZ (saved_retirementAge parsed) 65)
        (orR (saved_investmentRate parsed) 5)
        (orR (saved_savingsRate parsed) 2)
        (orR (saved_withdrawalRate parsed) 4)
  | NoItem | Unparsable => defaultState
  end.

(** [dataToSave], the object the saving effect writes, as [JSON.parse]
    reads it back: every key present. *)
Definition dataToSave (d : RetirementData) : SavedData :=
  mkSavedData (Some (accounts d)) (Some (currentAge d))
              (Some (retirementAge d)) (Some (investmentRate d))
              (Some (savingsRate d)) (Some (withdrawalRate d)).

(** *** The running balances of [simulateYearly] *)

(** The balances [(bs, bi)] after [n] iterations of the loop started at
    year offset [y] with [(bs, bi)]. *)
Fixpoint balancesAfter (d : RetirementData) (n : nat) (y : Z) (bs bi : R)
  : R * R :=
  match n with
  | O => (bs, bi)
  | S n' =>
      balancesAfter d n' (y + 1)%Z (fst (snd (loopBody d y bs bi)))
                    (snd (snd (loopBody d y bs bi)))
  end.

End RetirementCalculator.

(** ** The GrowthProjection component *)

Module GrowthProjection.

(** The props of the component; an optional prop is [None] when the caller
    leaves it out, and the destructuring supplies its default. *)
Record GrowthProjectionProps : Type := mkGrowthProjectionProps {
  currentSavings : R;
  currentInvestments : R;
  monthlyContributionsSavings : option R;
  monthlyContributionsInvestment : option R;
  retirementAge : Z;
  currentAge : Z;
  investmentRate : option R;
  savingsRate : option R;
  withdrawalRate : option R;
  projectedAtRetirement : option R;
  viewAge : option Z
}.

Definition withDefault {A : Type} (dflt : A) (o : option A) : A :=
  match o with
  | Some v => v
  | None => dflt
  end.

(** A value of the chart series: [Some r] is the finite number [r], [None]
    a non-finite one ([NaN] or an infinity), which only the unguarded
    divisions of the post-retirement branch can produce. *)
Definition num : Type := option R.

Record Projection : Type := mkProjection {
  year : Z;
  age : Z;
  savings : num;
  investments : num;
  total : num
}.

(** The duplicated helper; at [years <= 0] this variant returns the
    principal alone. *)
Definition calculateFutureValue
           (principalAmount monthlyContribution annualRate years : R) : R :=
  if Rle_dec years 0 then principalAmount
  else
    let monthlyRate := annualRate / 12 in
    let months := years * 12 in
    let futureValuePrincipal :=
      principalAmount * Math_pow (1 + annualRate) years in
    let futureValueAnnuity :=
      if Rgt_dec monthlyRate 0
      then monthlyContribution * (Math_pow (1 + monthlyRate) months - 1)
           / monthlyRate
      else monthlyContribution * months in
    futureValuePrincipal + futureValueAnnuity.

Section Component.

Variable p : GrowthProjectionProps.

Definition monthlySavings : R := withDefault 0 (monthlyContributionsSavings p).
Definition monthlyInvestment : R :=
  withDefault 0 (monthlyContributionsInvestment p).
Definition savingsGrowthRate : R := withDefault 2 (savingsRate p) / 100.
Definition investmentGrowthRate : R := withDefault 5 (investmentRate p) / 100.

Definition yearsToRetirement : Z := (retirementAge p - currentAge p)%Z.
Definition maxAge : Z :=
  (Z.max (withDefault 100%Z (viewAge p)) (retirementAge p) + 1)%Z.

(** The row of a pre-retirement year: both buckets by the closed form. *)
Definition preRetirementRow (year : Z) : Projection :=
  let projectedSavings :=
    calculateFutureValue (currentSavings p) monthlySavings
                         savingsGrowthRate (IZR year) in
  let projectedInvestments :=
    calculateFutureValue (currentInvestments p) monthlyInvestment
                         investmentGrowthRate (IZR year) in
  let total := projectedSavings + projectedInvestments in
  mkProjection year (currentAge p + year)%Z
               (Some (Math_round projectedSavings))
               (Some (Math_round projectedInvestments))
               (Some (Math_round total)).

(** The row of a post-retirement year, from the previous row.  Dividing by
    a previous total of [0] (or by a non-finite one) leaves every figure
    of the row non-finite. *)
Definition postRetirementRow (year : Z) (previousYear : Projection)
  : Projection :=
  let age := (currentAge p + year)%Z in
  match total previousYear, savings previousYear,
        investments previousYear with
  | Some prevTotal, Some prevSavings, Some prevInvestments =>
      if Req_dec_T prevTotal 0 then mkProjection year age None None None
      else
        let annualWithdrawal :=
          withDefault 0 (projectedAtRetirement p)
          * (withDefault 4 (withdrawalRate p) / 100) in
        let balance := prevTotal - annualWithdrawal in
        let balance := Math_max 0 balance in
        let blendedRate :=
          (prevSavings / prevTotal) * savingsGrowthRate
          + (prevInvestments / prevTotal) * investmentGrowthRate in
        let balance := balance * (1 + blendedRate) in
        (* [prevSavings / prevTotal || 0.5] *)
        let savingsRatio :=
          if Req_dec_T (prevSavings / prevTotal) 0 then / 2
          else prevSavings / prevTotal in
        let projectedSavings := balance * savingsRatio in
        let projectedInvestments := balance * (1 - savingsRatio) in
        mkProjection year age
                     (Some (Math_round projectedSavings))
                     (Some (Math_round projectedInvestments))
                     (Some (Math_round balance))
  | _, _, _ => mkProjection year age None None None
  end.

(** [for (let year = 0; year <= maxAge; year++)], from [year] on, with the
    rows pushed so far.  [None] is the [TypeError] raised when the
    post-retirement branch reads the last row of an empty array. *)
Fixpoint loop (fuel : nat) (year : Z) (projections : list Projection)
  : option (list Projection) :=
  match fuel with
  | O => Some projections
  | S fuel' =>
      if (year <=? maxAge)%Z then
        if (year <=? yearsToRetirement)%Z then
          loop fuel' (year + 1)%Z (projections ++ [preRetirementRow year])
        else
          match nth_error projections (List.length projections - 1) with
          | None => None
          | Some previousYear =>
              loop fuel' (year + 1)%Z
                   (projections ++ [postRetirementRow year previousYear])
          end
      else Some projections
  end.

Definition generateProjections : option (list Projection) :=
  loop (Z.to_nat (maxAge + 1)) 0%Z [].

End Component.

(** *** What the component shows under the chart *)

Definition totalAmount (p : GrowthProjectionProps) : R :=
  currentSavings p + currentInvestments p.

(** The outcome of rendering: an exception, the empty-state message (shown
    when [totalAmount === 0]), or the chart with its two statistics read off
    the last row of the series, [data[data.length - 1]]: the figure labelled
    "Projected at {retirementAge}" and the figure labelled "Total Growth". *)
Inductive Rendered : Type :=
| Raised
| EmptyProjection
| Stats (projected totalGrowth : num).

Definition render (p : GrowthProjectionProps) : Rendered :=
  match generateProjections p with
  | None => Raised
  | Some data =>
      if Req_dec_T (totalAmount p) 0 then EmptyProjection
      else
        match nth_error data (List.length data - 1) with
        | None => Raised
        | Some last =>
            Stats (total last)
                  (match total last with
                   | Some t => Some (t - totalAmount p)
                   | None => None
                   end)
        end
  end.

End GrowthProjection.

(** ** The chart as the calculator renders it *)

(** The props [RetirementCalculator] passes to [GrowthProjection]; [viewAge]
    is the state behind the view-age slider. *)
Definition growthProjectionProps
           (d : RetirementCalculator.RetirementData) (viewAge : Z)
  : GrowthProjection.GrowthProjectionProps :=
  GrowthProjection.mkGrowthProjectionProps
    (RetirementCalculator.totalSavings d)
    (RetirementCalculator.totalInvestments d
     + RetirementCalculator.total401k d
     + RetirementCalculator.totalRothIRA d)
    (Some (RetirementCalculator.monthlyContributionsSavings d))
    (Some (RetirementCalculator.monthlyContributionsInvestment d
           + RetirementCalculator.monthlyContributions401k d
           + RetirementCalculator.monthlyContributionsRothIRA d))
    (RetirementCalculator.retirementAge d)
    (RetirementCalculator.currentAge d)
    (Some (RetirementCalculator.investmentRate d))
    (Some (RetirementCalculator.savingsRate d))
    (Some (RetirementCalculator.withdrawalRate d))
    (Some (RetirementCalculator.projectedTotal d))
    (Some viewAge).

(** ** RetirementChart.tsx *)

Module RetirementChart.

Record RetirementChartProps : Type := mkRetirementChartProps {
  savings : R;
  investments : R;
  projectedSavings : R;
  projectedInvestments : R
}.

Section Component.

Variable p : RetirementChartProps.

(** The scale of both bars: the larger of the two totals, and 100000 at
    least. *)
Definition maxValue : R :=
  Math_max (Math_max (savings p + investments p)
                     (projectedSavings p + projectedInvestments p))
           100000.

(** The widths of the four segments, in percent of the bar. *)
Definition savingsPercent : R := (savings p / maxValue) * 100.
Definition investmentsPercent : R := (investments p / maxValue) * 100.
Definition projectedSavingsPercent : R :=
  (projectedSavings p / maxValue) * 100.
Definition projectedInvestmentsPercent : R :=
  (projectedInvestments p / maxValue) * 100.

End Component.

End RetirementChart.

(** The props [RetirementCalculator] passes to [RetirementChart]. *)
Definition retirementChartProps (d : RetirementCalculator.RetirementData)
  : RetirementChart.RetirementChartProps :=
  RetirementChart.mkRetirementChartProps
    (RetirementCalculator.totalSavings d)
    (RetirementCalculator.totalInvestments d
     + RetirementCalculator.total401k d
     + RetirementCalculator.totalRothIRA d)
    (RetirementCalculator.projectedSavings d)
    (RetirementCalculator.projectedInvestmentValue d).

(** ** The closed form in the words of the specification *)

(** The annuity term of the specification: defined for a positive rate and
    for rate zero, and left open for a negative rate. *)
Definition annuity_term_spec (monthly_contribution annual_rate years : R)
  : option R :=
  if Rgt_dec annual_rate 0
  then Some (monthly_contribution
             * (Math_pow (1 + annual_rate / 12) (years * 12) - 1)
             / (annual_rate / 12))
  else if Req_dec_T annual_rate 0
       then Some (monthly_contribution * years * 12)
       else None.

Definition future_value_spec
           (principal monthly_contribution annual_rate years : R) : option R :=
  match annuity_term_spec monthly_contribution annual_rate years with
  | Some annuity =>
      Some (principal * Math_pow (1 + annual_rate) years + annuity)
  | None => None
  end.

(** Deposits of [m] at the end of each of [n] months, each compounded at the
    monthly rate [i] until the end of month [n]: the ordinary annuity that
    the closed form sums up. *)
Fixpoint annuity_by_deposits (m i : R) (n : nat) : R :=
  match n with
  | O => 0
  | S n' => annuity_by_deposits m i n' * (1 + i) + m
  end.

(** The annuity term, as the code branches on the monthly rate. *)
Definition annuityTerm (m r y : R) : R :=
  if Rgt_dec (r / 12) 0
  then m * (Math_pow (1 + r / 12) (y * 12) - 1) / (r / 12)
  else m * (y * 12).

(** ** Sample inputs *)

Definition cashAccount (amount monthly : R) : Account :=
  mkAccount "1" "Cash" savings amount monthly.

(** Scenario A of the specification: 10000 in savings, 100 a month, 2% and
    5% growth, age 30, retirement at 31, nothing withdrawn. *)
Definition scenarioA : RetirementCalculator.RetirementData :=
  RetirementCalculator.mkRetirementData [cashAccount 10000 100] 30 31 5 2 0.


(** Past retirement, in the last year of the table. *)
Definition retired : RetirementCalculator.RetirementData :=
  RetirementCalculator.mkRetirementData [cashAccount 1000 100] 100 99 5 2 4.

(** Past retirement with nothing left to withdraw from. *)
Definition depleted : RetirementCalculator.RetirementData :=
  RetirementCalculator.mkRetirementData [cashAccount 0 100] 100 99 5 2 4.

(** The planner as it starts: age 30, retirement at 65, 5% and 2% growth,
    4% withdrawn. *)
Definition planner : RetirementCalculator.RetirementData :=
  RetirementCalculator.mkRetirementData [cashAccount 1000 100] 30 65 5 2 4.

(** A lump sum left to grow: 1000 in savings and no contributions. *)
Definition lumpSum : RetirementCalculator.RetirementData :=
  RetirementCalculator.mkRetirementData [cashAccount 1000 0] 30 65 5 2 4.

(** The planner with the investment growth slider at its minimum, 0%. *)
Definition noGrowth : RetirementCalculator.RetirementData :=
  RetirementCalculator.mkRetirementData [cashAccount 1000 100] 30 65 0 2 4.

(** Retiring at once and drawing the top rate: 1000 in savings, 1000 a
    month, retirement at the current age, 8% withdrawn. *)
Definition earlyRetiree : RetirementCalculator.RetirementData :=
  RetirementCalculator.mkRetirementData [cashAccount 1000 1000] 65 65 5 2 8.

(** The chart the calculator renders for it. *)
Definition earlyRetireeChart : GrowthProjection.GrowthProjectionProps :=
  growthProjectionProps earlyRetiree 65.

(** A chart drawn before any account exists, retirement at the current
    age. *)
Definition emptyChart : GrowthProjection.GrowthProjectionProps :=
  GrowthProjection.mkGrowthProjectionProps
    0 0 None None 30 30 None None None None None.

(** Its chart, with the view age at the retirement age as the component
    initialises it. *)
Definition plannerChart : GrowthProjection.GrowthProjectionProps :=
  growthProjectionProps planner 65.

(** Unfolding the aggregates of a concrete list of accounts. *)
Ltac eval_totals :=
  unfold RetirementCalculator.annualContribSavings,
    RetirementCalculator.annualContribInvestment,
    RetirementCalculator.savingsGrowthRate,
    RetirementCalculator.investmentGrowthRate,
    RetirementCalculator.totalSavings, RetirementCalculator.totalInvestments,
    RetirementCalculator.total401k, RetirementCalculator.totalRothIRA,
    RetirementCalculator.monthlyContributionsSavings,
    RetirementCalculator.monthlyContributionsInvestment,
    RetirementCalculator.monthlyContributions401k,
    RetirementCalculator.monthlyContributionsRothIRA, sumByType;
  simpl.

(** * Properties *)

(** ** [Math.pow] *)

Lemma Int_part_IZR (k : Z) : Int_part (IZR k) = k.
Proof.
  symmetry. apply Int_part_spec. lra.
Qed.

Lemma Math_pow_IZR (x : R) (k : Z) : Math_pow x (IZR k) = powerRZ x k.
Proof.
  unfold Math_pow. rewrite Int_part_IZR.
  destruct (Req_dec_T (IZR k) (IZR k)) as [_ | Hne];
    [reflexivity | contradiction].
Qed.

Lemma Math_pow_INR (x : R) (n : nat) : Math_pow x (INR n) = x ^ n.
Proof.
  rewrite INR_IZR_INZ, Math_pow_IZR. symmetry. apply pow_powerRZ.
Qed.

Lemma Math_pow_pos_base (x y : R) : 0 < x -> Math_pow x y = Rpower x y.
Proof.
  intros Hx. unfold Math_pow.
  destruct (Req_dec_T y (IZR (Int_part y))) as [Hy | Hy].
  - rewrite (powerRZ_Rpower x _ Hx), <- Hy. reflexivity.
  - destruct (Rgt_dec x 0) as [_ | Hn]; [reflexivity |].
    exfalso. apply Hn. exact Hx.
Qed.

Lemma Math_pow_0_exp (x : R) : Math_pow x 0 = 1.
Proof.
  change 0 with (IZR 0). rewrite Math_pow_IZR. reflexivity.
Qed.

Lemma Math_pow_1_exp (x : R) : Math_pow x 1 = x.
Proof.
  change 1 with (IZR 1). rewrite Math_pow_IZR. simpl. ring.
Qed.

(** For a base of at least [1] the power is monotone in the exponent. *)
Lemma Math_pow_mono_exp (x y1 y2 : R) :
  1 <= x -> y1 <= y2 -> Math_pow x y1 <= Math_pow x y2.
Proof.
  intros Hx Hy.
  rewrite !Math_pow_pos_base by lra.
  apply Rle_Rpower; assumption.
Qed.

Lemma Math_pow_ge_1 (x y : R) : 1 <= x -> 0 <= y -> 1 <= Math_pow x y.
Proof.
  intros Hx Hy. rewrite <- (Math_pow_0_exp x).
  apply Math_pow_mono_exp; assumption.
Qed.

(** Bernoulli's inequality, for the twelve months of a year. *)
Lemma pow_ge_linear (i : R) (n : nat) : 0 <= i -> 1 + INR n * i <= (1 + i) ^ n.
Proof.
  intros Hi. induction n as [| n IH].
  - simpl. lra.
  - rewrite S_INR. simpl.
    assert (Hn : 0 <= INR n) by apply pos_INR.
    nra.
Qed.

(** The closed form of the annuity is the sum of the compounded deposits. *)
Lemma annuity_by_deposits_closed_form (m i : R) (n : nat) :
  i <> 0 ->
  annuity_by_deposits m i n = m * (Math_pow (1 + i) (INR n) - 1) / i.
Proof.
  intros Hi. rewrite Math_pow_INR.
  induction n as [| n IH].
  - simpl. field. exact Hi.
  - simpl. rewrite IH. field. exact Hi.
Qed.

Lemma annuity_by_deposits_zero_rate (m : R) (n : nat) :
  annuity_by_deposits m 0 n = m * INR n.
Proof.
  induction n as [| n IH].
  - simpl. ring.
  - rewrite S_INR. simpl. rewrite IH. ring.
Qed.

(** ** The closed-form projector *)

(** The part both helpers share, for a positive span of years. *)
Lemma GrowthProjection_calculateFutureValue_pos (P m r y : R) :
  0 < y ->
  GrowthProjection.calculateFutureValue P m r y =
  P * Math_pow (1 + r) y + annuityTerm m r y.
Proof.
  intros Hy. unfold GrowthProjection.calculateFutureValue.
  destruct (Rle_dec y 0) as [Hle | _]; [lra | reflexivity].
Qed.

Lemma RetirementCalculator_calculateFutureValue_pos (P m r y : R) :
  0 < y ->
  RetirementCalculator.calculateFutureValue P m r y =
  P * Math_pow (1 + r) y + annuityTerm m r y.
Proof.
  intros Hy. unfold RetirementCalculator.calculateFutureValue.
  destruct (Rle_dec y 0) as [Hle | _]; [lra | reflexivity].
Qed.

Lemma GrowthProjection_calculateFutureValue_nonpos (P m r y : R) :
  y <= 0 -> GrowthProjection.calculateFutureValue P m r y = P.
Proof.
  intros Hy. unfold GrowthProjection.calculateFutureValue.
  destruct (Rle_dec y 0) as [_ | Hn]; [reflexivity | contradiction].
Qed.

Lemma RetirementCalculator_calculateFutureValue_nonpos (P m r y : R) :
  y <= 0 -> RetirementCalculator.calculateFutureValue P m r y = P + m * 12.
Proof.
  intros Hy. unfold RetirementCalculator.calculateFutureValue.
  destruct (Rle_dec y 0) as [_ | Hn]; [reflexivity | contradiction].
Qed.

Lemma calculateFutureValue_agree_pos (P m r y : R) :
  0 < y ->
  RetirementCalculator.calculateFutureValue P m r y =
  GrowthProjection.calculateFutureValue P m r y.
Proof.
  intros Hy.
  rewrite RetirementCalculator_calculateFutureValue_pos by exact Hy.
  rewrite GrowthProjection_calculateFutureValue_pos by exact Hy.
  reflexivity.
Qed.

Lemma annuityTerm_mono (m r y1 y2 : R) :
  0 <= m -> 0 <= r -> y1 <= y2 -> annuityTerm m r y1 <= annuityTerm m r y2.
Proof.
  intros Hm Hr Hy. unfold annuityTerm.
  destruct (Rgt_dec (r / 12) 0) as [Hpos | Hnpos].
  - assert (Hp : Math_pow (1 + r / 12) (y1 * 12)
                 <= Math_pow (1 + r / 12) (y2 * 12))
      by (apply Math_pow_mono_exp; lra).
    unfold Rdiv. apply Rmult_le_compat_r.
    + left. apply Rinv_0_lt_compat. lra.
    + apply Rmult_le_compat_l; lra.
  - apply Rmult_le_compat_l; lra.
Qed.

Lemma annuityTerm_nonneg (m r y : R) :
  0 <= m -> 0 <= r -> 0 <= y -> 0 <= annuityTerm m r y.
Proof.
  intros Hm Hr Hy.
  apply Rle_trans with (annuityTerm m r 0).
  - unfold annuityTerm. destruct (Rgt_dec (r / 12) 0) as [Hpos | Hnpos].
    + rewrite Rmult_0_l, Math_pow_0_exp. unfold Rdiv. right. ring.
    + right. ring.
  - apply annuityTerm_mono; assumption.
Qed.

(** Bernoulli's bound over the twelve months of one year. *)
Lemma Math_pow_year_ge (i : R) : 0 <= i -> 1 + 12 * i <= Math_pow (1 + i) 12.
Proof.
  intros Hi. rewrite Math_pow_IZR.
  change (powerRZ (1 + i) 12) with ((1 + i) ^ 12).
  pose proof (pow_ge_linear i 12 Hi) as Hb.
  rewrite INR_IZR_INZ in Hb. exact Hb.
Qed.

(** After a whole year the annuity holds at least the twelve deposits. *)
Lemma annuityTerm_year (m r y : R) :
  0 <= m -> 0 <= r -> 1 <= y -> m * 12 <= annuityTerm m r y.
Proof.
  intros Hm Hr Hy.
  apply Rle_trans with (annuityTerm m r 1).
  - unfold annuityTerm. destruct (Rgt_dec (r / 12) 0) as [Hpos | Hnpos].
    + replace (1 * 12) with 12 by ring.
      pose proof (Math_pow_year_ge (r / 12) (Rlt_le _ _ Hpos)) as Hb.
      generalize dependent (Math_pow (1 + r / 12) 12). intros X Hb.
      unfold Rdiv at 1. rewrite Rmult_assoc.
      apply Rmult_le_compat_l; [exact Hm |].
      apply Rmult_le_reg_r with (r / 12); [exact Hpos |].
      rewrite Rmult_assoc, Rinv_l by lra.
      lra.
    + lra.
  - apply annuityTerm_mono; assumption.
Qed.

Lemma principalTerm_mono (P r y1 y2 : R) :
  0 <= P -> 0 <= r -> y1 <= y2 ->
  P * Math_pow (1 + r) y1 <= P * Math_pow (1 + r) y2.
Proof.
  intros HP Hr Hy. apply Rmult_le_compat_l; [exact HP |].
  apply Math_pow_mono_exp; lra.
Qed.

Lemma principalTerm_ge (P r y : R) :
  0 <= P -> 0 <= r -> 0 <= y -> P <= P * Math_pow (1 + r) y.
Proof.
  intros HP Hr Hy.
  assert (H1 : 1 <= Math_pow (1 + r) y) by (apply Math_pow_ge_1; lra).
  nra.
Qed.

(** The GrowthProjection helper is monotone in the span of years, for every
    real span, the zero-year boundary included. *)
Lemma GrowthProjection_calculateFutureValue_mono (P m r y1 y2 : R) :
  0 <= P -> 0 <= m -> 0 <= r -> y1 <= y2 ->
  GrowthProjection.calculateFutureValue P m r y1
  <= GrowthProjection.calculateFutureValue P m r y2.
Proof.
  intros HP Hm Hr Hy.
  destruct (Rle_dec y2 0) as [H2 | H2].
  - rewrite !GrowthProjection_calculateFutureValue_nonpos by lra. lra.
  - apply Rnot_le_lt in H2.
    rewrite (GrowthProjection_calculateFutureValue_pos P m r y2) by exact H2.
    destruct (Rle_dec y1 0) as [H1 | H1].
    + rewrite GrowthProjection_calculateFutureValue_nonpos by exact H1.
      pose proof (principalTerm_ge P r y2 HP Hr (Rlt_le _ _ H2)).
      pose proof (annuityTerm_nonneg m r y2 Hm Hr (Rlt_le _ _ H2)).
      lra.
    + apply Rnot_le_lt in H1.
      rewrite GrowthProjection_calculateFutureValue_pos by exact H1.
      pose proof (principalTerm_mono P r y1 y2 HP Hr Hy).
      pose proof (annuityTerm_mono m r y1 y2 Hm Hr Hy).
      lra.
Qed.

(** The RetirementCalculator helper is monotone on either side of the
    zero-year boundary, and across it once the later span is a whole year or
    more. *)
Lemma RetirementCalculator_calculateFutureValue_mono (P m r y1 y2 : R) :
  0 <= P -> 0 <= m -> 0 <= r -> y1 <= y2 ->
  0 < y1 \/ y2 <= 0 \/ 1 <= y2 ->
  RetirementCalculator.calculateFutureValue P m r y1
  <= RetirementCalculator.calculateFutureValue P m r y2.
Proof.
  intros HP Hm Hr Hy Hside.
  destruct (Rle_dec y2 0) as [H2 | H2].
  - rewrite !RetirementCalculator_calculateFutureValue_nonpos by lra. lra.
  - apply Rnot_le_lt in H2.
    destruct (Rle_dec y1 0) as [H1 | H1].
    + assert (Hy2 : 1 <= y2) by (destruct Hside as [H | [H | H]]; lra).
      rewrite RetirementCalculator_calculateFutureValue_nonpos by exact H1.
      rewrite RetirementCalculator_calculateFutureValue_pos by exact H2.
      pose proof (principalTerm_ge P r y2 HP Hr (Rlt_le _ _ H2)).
      pose proof (annuityTerm_year m r y2 Hm Hr Hy2).
      lra.
    + apply Rnot_le_lt in H1.
      rewrite !calculateFutureValue_agree_pos by lra.
      apply GrowthProjection_calculateFutureValue_mono; assumption.
Qed.

(** ** Aggregation of the accounts *)

Lemma fold_left_sum_nonneg (f : Account -> R) (l : list Account) (acc : R) :
  Forall (fun a => 0 <= f a) l -> 0 <= acc ->
  0 <= fold_left (fun sum a => sum + f a) l acc.
Proof.
  revert acc. induction l as [| a l IH]; intros acc Hl Hacc.
  - exact Hacc.
  - inversion Hl as [| ? ? Ha Hl']; subst. simpl.
    apply IH; [exact Hl' | lra].
Qed.

(** Accounts with non-negative figures aggregate to non-negative totals. *)
Lemma sumByType_nonneg (t : AccountType) (f : Account -> R)
      (accounts : list Account) :
  Forall (fun a => 0 <= f a) accounts -> 0 <= sumByType t f accounts.
Proof.
  intros Hall. unfold sumByType.
  apply fold_left_sum_nonneg; [| lra].
  rewrite Forall_forall in *. intros a Ha.
  apply filter_In in Ha. apply Hall. tauto.
Qed.

(** ** The yearly simulator: one iteration *)

Section LoopBody.

Import RetirementCalculator.
Variable d : RetirementData.

Lemma loopBody_year (y : Z) (bs bi : R) :
  year (fst (loopBody d y bs bi)) = y
  /\ age (fst (loopBody d y bs bi)) = (currentAge d + y)%Z
  /\ salaryBasis (fst (loopBody d y bs bi)) = bs + bi.
Proof.
  unfold loopBody.
  destruct (y <=? yearsToRetirement d)%Z; simpl; auto.
Qed.

Lemma loopBody_balance (y : Z) (bs bi : R) :
  balance (fst (loopBody d y bs bi))
  = fst (snd (loopBody d y bs bi)) + snd (snd (loopBody d y bs bi)).
Proof.
  unfold loopBody.
  destruct (y <=? yearsToRetirement d)%Z; reflexivity.
Qed.

(** An accumulation iteration: contributions first, then growth. *)
Lemma loopBody_accumulation (y : Z) (bs bi : R) :
  (y <= yearsToRetirement d)%Z ->
  let r := fst (loopBody d y bs bi) in
  annualContribution r = annualContribSavings d + annualContribInvestment d
  /\ payout r = 0
  /\ retirementIncome r = 0
  /\ snd (loopBody d y bs bi)
     = ((bs + annualContribSavings d) * (1 + savingsGrowthRate d),
        (bi + annualContribInvestment d) * (1 + investmentGrowthRate d)).
Proof.
  intros Hy. unfold loopBody.
  replace (y <=? yearsToRetirement d)%Z with true
    by (symmetry; apply Z.leb_le; exact Hy).
  replace (y >? yearsToRetirement d)%Z with false
    by (symmetry; rewrite Z.gtb_ltb; apply Z.ltb_ge; exact Hy).
  simpl. auto.
Qed.

(** A decumulation iteration: the clamped withdrawal, then the split of
    the remainder in the proportion held before it, then growth. *)
Lemma loopBody_decumulation (y : Z) (bs bi : R) :
  (yearsToRetirement d < y)%Z ->
  let r := fst (loopBody d y bs bi) in
  let remainder :=
    Math_max 0 (bs + bi - Math_min (bs + bi) (annualWithdrawal d)) in
  let savingsRatio := if Rgt_dec (bs + bi) 0 then bs / (bs + bi) else / 2 in
  annualContribution r = 0
  /\ payout r = Math_min (bs + bi) (annualWithdrawal d)
  /\ retirementIncome r = annualWithdrawal d
  /\ snd (loopBody d y bs bi)
     = (remainder * savingsRatio * (1 + savingsGrowthRate d),
        remainder * (1 - savingsRatio) * (1 + investmentGrowthRate d)).
Proof.
  intros Hy. unfold loopBody.
  replace (y <=? yearsToRetirement d)%Z with false
    by (symmetry; apply Z.leb_gt; exact Hy).
  replace (y >? yearsToRetirement d)%Z with true
    by (symmetry; rewrite Z.gtb_ltb; apply Z.ltb_lt; exact Hy).
  simpl. auto.
Qed.

Lemma loop_S (fuel : nat) (y : Z) (bs bi : R) :
  (y <= totalYears d)%Z ->
  loop d (S fuel) y bs bi
  = fst (loopBody d y bs bi)
    :: loop d fuel (y + 1)%Z (fst (snd (loopBody d y bs bi)))
            (snd (snd (loopBody d y bs bi))).
Proof.
  intros Hy. simpl.
  replace (y <=? totalYears d)%Z with true
    by (symmetry; apply Z.leb_le; exact Hy).
  destruct (loopBody d y bs bi) as [row [bs' bi']]. reflexivity.
Qed.

Lemma loop_past_end (fuel : nat) (y : Z) (bs bi : R) :
  (totalYears d < y)%Z -> loop d fuel y bs bi = [].
Proof.
  intros Hy. destruct fuel as [| fuel]; [reflexivity |].
  simpl.
  replace (y <=? totalYears d)%Z with false
    by (symmetry; apply Z.leb_gt; exact Hy).
  reflexivity.
Qed.

(** The rows are produced one per year offset, while the offset is within
    [totalYears] and fuel remains. *)
Lemma loop_length (fuel : nat) (y : Z) (bs bi : R) :
  List.length (loop d fuel y bs bi)
  = Nat.min fuel (Z.to_nat (totalYears d - y + 1)).
Proof.
  revert y bs bi. induction fuel as [| fuel IH]; intros y bs bi.
  - reflexivity.
  - destruct (Z_le_gt_dec y (totalYears d)) as [Hy | Hy].
    + rewrite loop_S by exact Hy. simpl List.length. rewrite IH.
      replace (Z.to_nat (totalYears d - y + 1))
        with (S (Z.to_nat (totalYears d - (y + 1) + 1))) by lia.
      reflexivity.
    + rewrite loop_past_end by lia.
      replace (Z.to_nat (totalYears d - y + 1)) with O by lia.
      rewrite Nat.min_0_r. reflexivity.
Qed.

(** More fuel than the loop needs changes nothing. *)
Lemma loop_fuel_irrelevant (fuel : nat) (y : Z) (bs bi : R) :
  (Z.to_nat (totalYears d - y + 1) <= fuel)%nat ->
  loop d fuel y bs bi = loop d (Z.to_nat (totalYears d - y + 1)) y bs bi.
Proof.
  revert y bs bi. induction fuel as [| fuel IH]; intros y bs bi Hf.
  - replace (Z.to_nat (totalYears d - y + 1)) with O by lia. reflexivity.
  - destruct (Z_le_gt_dec y (totalYears d)) as [Hy | Hy].
    + replace (Z.to_nat (totalYears d - y + 1))
        with (S (Z.to_nat (totalYears d - (y + 1) + 1))) in * by lia.
      rewrite !loop_S by exact Hy. f_equal. apply IH. lia.
    + rewrite !loop_past_end by lia. reflexivity.
Qed.

Lemma loop_nth_year (fuel : nat) (y : Z) (bs bi : R) (n : nat) (r : Row) :
  nth_error (loop d fuel y bs bi) n = Some r ->
  year r = (y + Z.of_nat n)%Z /\ age r = (currentAge d + year r)%Z.
Proof.
  revert y bs bi n. induction fuel as [| fuel IH]; intros y bs bi n Hn.
  - destruct n; discriminate.
  - destruct (Z_le_gt_dec y (totalYears d)) as [Hy | Hy].
    + rewrite loop_S in Hn by exact Hy.
      destruct n as [| n]; simpl in Hn.
      * injection Hn as <-.
        destruct (loopBody_year y bs bi) as (Hyr & Hage & _).
        rewrite Hyr, Hage. split; [lia | reflexivity].
      * apply IH in Hn. destruct Hn as [Hyr Hage].
        split; [lia | exact Hage].
    + rewrite loop_past_end in Hn by lia. destruct n; discriminate.
Qed.

(** Proving a property of every row from an invariant of the two running
    balances. *)
Lemma loop_Forall (Inv : R -> R -> Prop) (Q : Row -> Prop) :
  (forall y bs bi,
      Inv bs bi ->
      Q (fst (loopBody d y bs bi))
      /\ Inv (fst (snd (loopBody d y bs bi)))
             (snd (snd (loopBody d y bs bi)))) ->
  forall fuel y bs bi, Inv bs bi -> Forall Q (loop d fuel y bs bi).
Proof.
  intros Hstep fuel. induction fuel as [| fuel IH]; intros y bs bi HI.
  - constructor.
  - destruct (Z_le_gt_dec y (totalYears d)) as [Hy | Hy].
    + rewrite loop_S by exact Hy.
      destruct (Hstep y bs bi HI) as [HQ HI'].
      constructor; [exact HQ | apply IH; exact HI'].
    + rewrite loop_past_end by lia. constructor.
Qed.

End LoopBody.

(** ** The chart series: the loop of [generateProjections] *)

Section ChartLoop.

Import GrowthProjection.
Variable p : GrowthProjectionProps.

Lemma preRetirementRow_year (y : Z) :
  year (preRetirementRow p y) = y
  /\ age (preRetirementRow p y) = (currentAge p + y)%Z.
Proof. split; reflexivity. Qed.

Lemma postRetirementRow_year (y : Z) (previousYear : Projection) :
  year (postRetirementRow p y previousYear) = y
  /\ age (postRetirementRow p y previousYear) = (currentAge p + y)%Z.
Proof.
  unfold postRetirementRow.
  destruct (total previousYear) as [t |];
    destruct (savings previousYear) as [s |];
    destruct (investments previousYear) as [i |];
    try (split; reflexivity).
  destruct (Req_dec_T t 0); split; reflexivity.
Qed.

Lemma last_row_exists (projections : list Projection) :
  projections <> [] ->
  exists previousYear,
    nth_error projections (List.length projections - 1) = Some previousYear.
Proof.
  intros Hne.
  destruct (nth_error projections (List.length projections - 1)) as [r |] eqn:E.
  - exists r. reflexivity.
  - apply nth_error_None in E.
    destruct projections as [| a l]; [contradiction | simpl in E; lia].
Qed.

(** Unless the first iteration is already past retirement, the loop
    raises nothing and appends one row per year offset from [y] to
    [maxAge]. *)
Lemma loop_appends (fuel : nat) (y : Z) (projections : list Projection) :
  projections <> [] \/ (y <= yearsToRetirement p)%Z \/ (maxAge p < y)%Z ->
  exists rows,
    loop p fuel y projections = Some (projections ++ rows)
    /\ List.length rows = Nat.min fuel (Z.to_nat (maxAge p - y + 1))
    /\ forall n r, nth_error rows n = Some r ->
                   year r = (y + Z.of_nat n)%Z
                   /\ age r = (currentAge p + year r)%Z.
Proof.
  revert y projections.
  induction fuel as [| fuel IH]; intros y projections Hok.
  - exists []. rewrite app_nil_r. repeat split; try reflexivity.
    all: destruct n; discriminate.
  - simpl loop.
    destruct (Z.leb_spec y (maxAge p)) as [Hy | Hy].
    + assert (Hcount : Z.to_nat (maxAge p - y + 1)
                       = S (Z.to_nat (maxAge p - (y + 1) + 1))) by lia.
      assert (Hnext : forall row rows',
                 (forall n r, nth_error rows' n = Some r ->
                              year r = (y + 1 + Z.of_nat n)%Z
                              /\ age r = (currentAge p + year r)%Z) ->
                 year row = y /\ age row = (currentAge p + y)%Z ->
                 forall n r, nth_error (row :: rows') n = Some r ->
                             year r = (y + Z.of_nat n)%Z
                             /\ age r = (currentAge p + year r)%Z).
      { intros row rows' Hrows' [Hyr Hage] n r Hn.
        destruct n as [| n]; simpl in Hn.
        - injection Hn as <-. rewrite Hyr, Hage. split; [lia | reflexivity].
        - apply Hrows' in Hn. destruct Hn as [H1 H2]. split; [lia | exact H2]. }
      destruct (Z.leb_spec y (yearsToRetirement p)) as [Hpre | Hpost].
      * destruct (IH (y + 1)%Z (projections ++ [preRetirementRow p y]))
          as (rows' & Hloop & Hlen & Hyears).
        { left. intros Habs. apply app_eq_nil in Habs.
          destruct Habs as [_ Habs]. discriminate. }
        exists (preRetirementRow p y :: rows').
        rewrite Hloop, <- app_assoc. simpl. rewrite Hlen, Hcount.
        repeat split; try reflexivity.
        all: eapply Hnext; eauto using preRetirementRow_year.
      * assert (Hne : projections <> [])
          by (destruct Hok as [H | [H | H]]; [exact H | lia | lia]).
        destruct (last_row_exists projections Hne) as [previousYear Hprev].
        rewrite Hprev.
        destruct (IH (y + 1)%Z
                     (projections ++ [postRetirementRow p y previousYear]))
          as (rows' & Hloop & Hlen & Hyears).
        { left. intros Habs. apply app_eq_nil in Habs.
          destruct Habs as [_ Habs]. discriminate. }
        exists (postRetirementRow p y previousYear :: rows').
        rewrite Hloop, <- app_assoc. simpl. rewrite Hlen, Hcount.
        repeat split; try reflexivity.
        all: eapply Hnext; eauto using postRetirementRow_year.
    + exists []. rewrite app_nil_r.
      replace (Z.to_nat (maxAge p - y + 1)) with O by lia.
      rewrite Nat.min_0_r.
      repeat split; try reflexivity.
      all: destruct n; discriminate.
Qed.

(** The series for a retirement age not below the current age: one row
    per year offset from [0] to [maxAge], an age bound used as a count of
    years. *)
Lemma generateProjections_rows :
  (0 <= yearsToRetirement p)%Z \/ (maxAge p < 0)%Z ->
  exists rows,
    generateProjections p = Some rows
    /\ List.length rows = Z.to_nat (maxAge p + 1)
    /\ forall n r, nth_error rows n = Some r ->
                   year r = Z.of_nat n
                   /\ age r = (currentAge p + Z.of_nat n)%Z.
Proof.
  intros Hok. unfold generateProjections.
  destruct (loop_appends (Z.to_nat (maxAge p + 1)) 0 [])
    as (rows & Hloop & Hlen & Hyears); [right; exact Hok |].
  exists rows. simpl in Hloop. split; [exact Hloop |].
  split.
  - rewrite Hlen. replace (maxAge p - 0 + 1)%Z with (maxAge p + 1)%Z by lia.
    apply Nat.min_id.
  - intros n r Hn. apply Hyears in Hn. destruct Hn as [H1 H2].
    rewrite H2, H1. split; [lia | f_equal; lia].
Qed.

(** With a retirement age below the current age the first iteration reads
    the last row of an empty array. *)
Lemma generateProjections_raises :
  (yearsToRetirement p < 0)%Z -> (0 <= maxAge p)%Z ->
  generateProjections p = None.
Proof.
  intros Hpost Hmax. unfold generateProjections.
  replace (Z.to_nat (maxAge p + 1)) with (S (Z.to_nat (maxAge p))) by lia.
  simpl.
  replace (0 <=? maxAge p)%Z with true
    by (symmetry; apply Z.leb_le; exact Hmax).
  replace (0 <=? yearsToRetirement p)%Z with false
    by (symmetry; apply Z.leb_gt; exact Hpost).
  reflexivity.
Qed.

End ChartLoop.

(** ** The yearly simulator: the whole table *)

Section YearlyTable.

Import RetirementCalculator.
Variable d : RetirementData.

Lemma simulateYearly_empty :
  (totalYears d < 0)%Z -> simulateYearly d = [].
Proof.
  intros H. unfold simulateYearly. apply loop_past_end. exact H.
Qed.

Lemma simulateYearly_head :
  (0 <= totalYears d)%Z ->
  simulateYearly d
  = fst (loopBody d 0 (totalSavings d)
                   (totalInvestments d + total401k d + totalRothIRA d))
    :: loop d (Z.to_nat (totalYears d)) 1
            (fst (snd (loopBody d 0 (totalSavings d)
                                (totalInvestments d + total401k d
                                 + totalRothIRA d))))
            (snd (snd (loopBody d 0 (totalSavings d)
                                (totalInvestments d + total401k d
                                 + totalRothIRA d)))).
Proof.
  intros H. unfold simulateYearly.
  replace (Z.to_nat (totalYears d + 1)) with (S (Z.to_nat (totalYears d)))
    by lia.
  rewrite loop_S by exact H. reflexivity.
Qed.

Lemma simulateYearly_row0 (r0 : Row) :
  nth_error (simulateYearly d) 0 = Some r0 ->
  r0 = fst (loopBody d 0 (totalSavings d)
                   (totalInvestments d + total401k d + totalRothIRA d)).
Proof.
  intros H0.
  destruct (Z_lt_ge_dec (totalYears d) 0) as [Hneg | Hpos].
  - rewrite simulateYearly_empty in H0 by exact Hneg. discriminate.
  - rewrite simulateYearly_head in H0 by lia.
    simpl in H0. injection H0 as <-. reflexivity.
Qed.

Lemma simulateYearly_row1 (r1 : Row) :
  nth_error (simulateYearly d) 1 = Some r1 ->
  r1 = fst (loopBody d 1
                     (fst (snd (loopBody d 0 (totalSavings d)
                                         (totalInvestments d + total401k d
                                          + totalRothIRA d))))
                     (snd (snd (loopBody d 0 (totalSavings d)
                                         (totalInvestments d + total401k d
                                          + totalRothIRA d))))).
Proof.
  intros H1.
  destruct (Z_lt_ge_dec (totalYears d) 0) as [Hneg | Hpos].
  - rewrite simulateYearly_empty in H1 by exact Hneg. discriminate.
  - rewrite simulateYearly_head in H1 by lia.
    simpl in H1.
    destruct (Z_lt_ge_dec (totalYears d) 1) as [Hone | Hmore].
    + rewrite loop_past_end in H1 by lia. discriminate.
    + replace (Z.to_nat (totalYears d))
        with (S (Z.to_nat (totalYears d - 1))) in H1 by lia.
      rewrite loop_S in H1 by lia.
      simpl in H1. injection H1 as <-. reflexivity.
Qed.

Lemma simulateYearly_length :
  List.length (simulateYearly d) = Z.to_nat (totalYears d + 1).
Proof.
  unfold simulateYearly. rewrite loop_length.
  replace (totalYears d - 0 + 1)%Z with (totalYears d + 1)%Z by lia.
  apply Nat.min_id.
Qed.

Lemma simulateYearly_nth_year (n : nat) (r : Row) :
  nth_error (simulateYearly d) n = Some r ->
  year r = Z.of_nat n /\ age r = (currentAge d + Z.of_nat n)%Z.
Proof.
  intros Hn. unfold simulateYearly in Hn.
  apply loop_nth_year in Hn. destruct Hn as [H1 H2].
  rewrite H2, H1. split; [lia | f_equal; lia].
Qed.

(** Every decumulation row carries the one withdrawal figure computed
    before the loop: unclamped as income, clamped by the balance the row
    starts from as payout. *)
Lemma simulateYearly_decumulation_rows :
  Forall (fun r =>
            (yearsToRetirement d < year r)%Z ->
            annualContribution r = 0
            /\ retirementIncome r = annualWithdrawal d
            /\ payout r = Math_min (salaryBasis r) (annualWithdrawal d))
         (simulateYearly d).
Proof.
  unfold simulateYearly.
  apply (loop_Forall d (fun _ _ => True)); [| exact I].
  intros y bs bi _. split; [| exact I].
  destruct (loopBody_year d y bs bi) as (Hyr & _ & Hbasis).
  rewrite Hyr, Hbasis. intros Hpost.
  destruct (loopBody_decumulation d y bs bi Hpost) as (Hc & Hp & Hi & _).
  auto.
Qed.

Lemma simulateYearly_accumulation_rows :
  Forall (fun r =>
            (year r <= yearsToRetirement d)%Z ->
            annualContribution r
            = annualContribSavings d + annualContribInvestment d
            /\ retirementIncome r = 0
            /\ payout r = 0)
         (simulateYearly d).
Proof.
  unfold simulateYearly.
  apply (loop_Forall d (fun _ _ => True)); [| exact I].
  intros y bs bi _. split; [| exact I].
  destruct (loopBody_year d y bs bi) as (Hyr & _ & _).
  rewrite Hyr. intros Hpre.
  destruct (loopBody_accumulation d y bs bi Hpre) as (Hc & Hp & Hi & _).
  auto.
Qed.

(** Non-negative balances stay non-negative through an iteration, under
    non-negative contributions and growth rates. *)
Lemma loopBody_nonneg (y : Z) (bs bi : R) :
  0 <= annualContribSavings d -> 0 <= annualContribInvestment d ->
  0 <= savingsGrowthRate d -> 0 <= investmentGrowthRate d ->
  0 <= bs -> 0 <= bi ->
  0 <= fst (snd (loopBody d y bs bi)) /\ 0 <= snd (snd (loopBody d y bs bi)).
Proof.
  intros Hcs Hci Hgs Hgi Hbs Hbi.
  destruct (Z_le_gt_dec y (yearsToRetirement d)) as [Hpre | Hpost].
  - destruct (loopBody_accumulation d y bs bi Hpre) as (_ & _ & _ & ->).
    simpl. split; apply Rmult_le_pos; lra.
  - destruct (loopBody_decumulation d y bs bi) as (_ & _ & _ & ->); [lia |].
    simpl.
    set (remainder :=
           Math_max 0 (bs + bi - Math_min (bs + bi) (annualWithdrawal d))).
    assert (Hrem : 0 <= remainder) by apply Rmax_l.
    assert (Hratio : 0 <= (if Rgt_dec (bs + bi) 0 then bs / (bs + bi) else / 2)
                     <= 1).
    { destruct (Rgt_dec (bs + bi) 0) as [Hpos | Hzero]; [| lra].
      assert (Hinv : 0 < / (bs + bi)) by (apply Rinv_0_lt_compat; lra).
      assert (Hone : (bs + bi) * / (bs + bi) = 1) by (apply Rinv_r; lra).
      unfold Rdiv. split; nra. }
    split; repeat apply Rmult_le_pos; lra.
Qed.

Lemma simulateYearly_nonneg :
  0 <= totalSavings d ->
0 <= totalInvestments d + total401k d + totalRothIRA d ->
  0 <= annualContribSavings d -> 0 <= annualContribInvestment d ->
  0 <= savingsGrowthRate d -> 0 <= investmentGrowthRate d ->
  Forall (fun r => 0 <= salaryBasis r /\ 0 <= balance r) (simulateYearly d).
Proof.
  intros Hbs Hbi Hcs Hci Hgs Hgi. unfold simulateYearly.
  apply (loop_Forall d (fun bs bi => 0 <= bs /\ 0 <= bi));
    [| split; assumption].
  intros y bs bi [H1 H2].
  pose proof (loopBody_nonneg y bs bi Hcs Hci Hgs Hgi H1 H2) as [H3 H4].
  destruct (loopBody_year d y bs bi) as (_ & _ & Hbasis).
  rewrite Hbasis, loopBody_balance.
  repeat split; lra.
Qed.

End YearlyTable.

(** ** The sample inputs, evaluated *)

Lemma projectedTotal_nonpos_years (d : RetirementCalculator.RetirementData) :
  (RetirementCalculator.retirementAge d
   <= RetirementCalculator.currentAge d)%Z ->
  RetirementCalculator.projectedTotal d
  = (RetirementCalculator.totalInvestments d + RetirementCalculator.total401k d
     + RetirementCalculator.totalRothIRA d)
    + (RetirementCalculator.monthlyContributionsInvestment d
       + RetirementCalculator.monthlyContributions401k d
       + RetirementCalculator.monthlyContributionsRothIRA d) * 12
    + (RetirementCalculator.totalSavings d
       + RetirementCalculator.monthlyContributionsSavings d * 12).
Proof.
  intros Hle.
  unfold RetirementCalculator.projectedTotal,
    RetirementCalculator.projectedInvestmentValue,
    RetirementCalculator.projectedSavings.
  assert (Hy : IZR (RetirementCalculator.yearsToRetirement d) <= 0).
  { apply IZR_le. unfold RetirementCalculator.yearsToRetirement. lia. }
  rewrite !RetirementCalculator_calculateFutureValue_nonpos by exact Hy.
  reflexivity.
Qed.



Lemma annualWithdrawal_depleted :
  RetirementCalculator.annualWithdrawal depleted = 48.
Proof.
  unfold RetirementCalculator.annualWithdrawal.
  rewrite projectedTotal_nonpos_years by (simpl; lia).
  eval_totals. lra.
Qed.

(** * The claims *)

Lemma Math_pow_base_1 (y : R) : Math_pow 1 y = 1.
Proof.
  rewrite Math_pow_pos_base by lra.
  unfold Rpower. rewrite ln_1, Rmult_0_r. apply exp_0.
Qed.

(** ** Closed-form projector *)

(** C1.  For a positive span of years both helpers return what the
    specification writes: the principal compounded yearly plus the annuity
    term, which is [m * ((1 + r/12)^(12 y) - 1) / (r/12)] for a positive
    rate [r] and [m * y * 12] for rate zero. *)
Theorem C1_future_value_closed_form (P m r y : R) :
  0 < y -> 0 <= r ->
  future_value_spec P m r y
  = Some (RetirementCalculator.calculateFutureValue P m r y)
  /\ future_value_spec P m r y
     = Some (GrowthProjection.calculateFutureValue P m r y).
Proof.
  intros Hy Hr.
  rewrite RetirementCalculator_calculateFutureValue_pos by exact Hy.
  rewrite GrowthProjection_calculateFutureValue_pos by exact Hy.
  unfold future_value_spec, annuity_term_spec, annuityTerm.
  destruct (Rgt_dec r 0) as [Hpos | Hnpos].
  - destruct (Rgt_dec (r / 12) 0) as [_ | Hn]; [split; reflexivity | lra].
  - destruct (Req_dec_T r 0) as [Hz | Hnz]; [| lra].
    destruct (Rgt_dec (r / 12) 0) as [Hp | _]; [lra |].
    split; f_equal; ring.
Qed.

Lemma C1_future_value_closed_form_witness :
  0 < 10 /\ 0 <= 5 / 100
  /\ future_value_spec 1000 100 (5 / 100) 10
     = Some (RetirementCalculator.calculateFutureValue 1000 100 (5 / 100) 10).
Proof.
  split; [lra |]. split; [lra |].
  apply (C1_future_value_closed_form 1000 100 (5 / 100) 10); lra.
Defined.

(** C4 (as stated, refuted).  With 1000 in the account, 100 a month and no
    growth, the RetirementCalculator helper returns 2200 at zero years but
    1600 after half a year. *)
Lemma C4_counterexample :
  0 <= 1000 /\ 0 <= 100 /\ 0 <= 0 /\ 0 <= 1 / 2
  /\ ~ (RetirementCalculator.calculateFutureValue 1000 100 0 0
        <= RetirementCalculator.calculateFutureValue 1000 100 0 (1 / 2)).
Proof.
  repeat (split; [lra |]).
  rewrite RetirementCalculator_calculateFutureValue_nonpos by lra.
  rewrite RetirementCalculator_calculateFutureValue_pos by lra.
  replace (1 + 0) with 1 by ring. rewrite Math_pow_base_1.
  unfold annuityTerm.
  destruct (Rgt_dec (0 / 12) 0) as [Hp | _]; lra.
Qed.

(** C4 (amended).  For non-negative principal, contribution and rate, the
    GrowthProjection helper is non-decreasing in the span of years for all
    real spans, across zero years too; the RetirementCalculator helper is
    non-decreasing from [y1] to [y2] whenever both lie on one side of zero
    or [y2] is at least one whole year. *)
Theorem C4_future_value_monotone (P m r y1 y2 : R) :
  0 <= P -> 0 <= m -> 0 <= r -> y1 <= y2 ->
  GrowthProjection.calculateFutureValue P m r y1
  <= GrowthProjection.calculateFutureValue P m r y2
  /\ (0 < y1 \/ y2 <= 0 \/ 1 <= y2 ->
      RetirementCalculator.calculateFutureValue P m r y1
      <= RetirementCalculator.calculateFutureValue P m r y2).
Proof.
  intros HP Hm Hr Hy. split.
  - apply GrowthProjection_calculateFutureValue_mono; assumption.
  - intros Hside.
    apply RetirementCalculator_calculateFutureValue_mono; assumption.
Qed.

Lemma C4_future_value_monotone_witness :
  0 <= 1000 /\ 0 <= 100 /\ 0 <= 5 / 100 /\ 0 <= 1
  /\ GrowthProjection.calculateFutureValue 1000 100 (5 / 100) 0
     <= GrowthProjection.calculateFutureValue 1000 100 (5 / 100) 1
  /\ RetirementCalculator.calculateFutureValue 1000 100 (5 / 100) 0
     <= RetirementCalculator.calculateFutureValue 1000 100 (5 / 100) 1.
Proof.
  repeat (split; [lra |]).
  destruct (C4_future_value_monotone 1000 100 (5 / 100) 0 1) as [HG HR];
    [lra | lra | lra | lra |].
  split; [exact HG | apply HR; right; right; lra].
Defined.

(** C5 (as stated, refuted).  At zero years the RetirementCalculator helper
    returns the principal plus twelve contributions: 2200, not 1000. *)
Lemma C5_counterexample :
  0 <= 1000 /\ 0 <= 100 /\ 0 <= 5 / 100
  /\ RetirementCalculator.calculateFutureValue 1000 100 (5 / 100) 0 = 2200
  /\ RetirementCalculator.calculateFutureValue 1000 100 (5 / 100) 0 <> 1000.
Proof.
  repeat (split; [lra |]).
  rewrite RetirementCalculator_calculateFutureValue_nonpos by lra.
  split; lra.
Qed.

(** C5 (amended).  At zero years the GrowthProjection helper returns exactly
    the principal, and the RetirementCalculator helper the principal plus
    twelve monthly contributions, for every principal, contribution and
    rate. *)
Theorem C5_future_value_zero_years (P m r : R) :
  GrowthProjection.calculateFutureValue P m r 0 = P
  /\ RetirementCalculator.calculateFutureValue P m r 0 = P + m * 12.
Proof.
  split.
  - apply GrowthProjection_calculateFutureValue_nonpos. lra.
  - apply RetirementCalculator_calculateFutureValue_nonpos. lra.
Qed.

(** C6.  The two helpers agree for every positive span of years; for a span
    of zero or less one returns the principal and the other the principal
    plus twelve monthly contributions. *)
Theorem C6_duplicated_helpers (P m r y : R) :
  (0 < y ->
   RetirementCalculator.calculateFutureValue P m r y
   = GrowthProjection.calculateFutureValue P m r y)
  /\ (y <= 0 ->
      GrowthProjection.calculateFutureValue P m r y = P
      /\ RetirementCalculator.calculateFutureValue P m r y = P + m * 12).
Proof.
  split.
  - apply calculateFutureValue_agree_pos.
  - intros Hy. split.
    + apply GrowthProjection_calculateFutureValue_nonpos. exact Hy.
    + apply RetirementCalculator_calculateFutureValue_nonpos. exact Hy.
Qed.

Lemma C6_duplicated_helpers_witness :
  (0 < 10
   /\ RetirementCalculator.calculateFutureValue 1000 100 (5 / 100) 10
      = GrowthProjection.calculateFutureValue 1000 100 (5 / 100) 10)
  /\ (0 <= 0
      /\ GrowthProjection.calculateFutureValue 1000 100 (5 / 100) 0 = 1000
      /\ RetirementCalculator.calculateFutureValue 1000 100 (5 / 100) 0
         = 1000 + 100 * 12).
Proof.
  split.
  - split; [lra |].
    apply (proj1 (C6_duplicated_helpers 1000 100 (5 / 100) 10)). lra.
  - split; [lra |].
    apply (proj2 (C6_duplicated_helpers 1000 100 (5 / 100) 0)). lra.
Defined.

(** ** Yearly simulator *)

Section SimulatorClaims.

Import RetirementCalculator.



(** The yearly table keeps what C3 asks.  With non-negative bucket
    principals, monthly contributions and growth rates, every row starts
    from and ends with a non-negative balance, and a decumulation row pays
    out the smaller of the balance it starts from and the annual withdrawal,
    never more than that balance. *)
Theorem C3_balance_never_negative (d : RetirementData) :
  0 <= totalSavings d ->
  0 <= totalInvestments d + total401k d + totalRothIRA d ->
  0 <= monthlyContributionsSavings d ->
  0 <= monthlyContributionsInvestment d + monthlyContributions401k d
       + monthlyContributionsRothIRA d ->
  0 <= savingsRate d -> 0 <= investmentRate d ->
  Forall (fun r =>
            0 <= balance r
            /\ ((yearsToRetirement d < year r)%Z ->
                payout r = Math_min (salaryBasis r) (annualWithdrawal d)
                /\ payout r <= salaryBasis r
                /\ 0 <= salaryBasis r - payout r))
         (simulateYearly d).
Proof.
  intros Hbs Hbi Hms Hmi Hrs Hri.
  assert (Hnn : Forall (fun r => 0 <= salaryBasis r /\ 0 <= balance r)
                       (simulateYearly d)).
  { apply simulateYearly_nonneg; try assumption.
    - unfold annualContribSavings. lra.
    - unfold annualContribInvestment. lra.
    - unfold savingsGrowthRate. lra.
    - unfold investmentGrowthRate. lra. }
  pose proof (simulateYearly_decumulation_rows d) as Hdec.
  rewrite Forall_forall in *. intros r Hin.
  destruct (Hnn r Hin) as [Hsb Hbal].
  split; [exact Hbal |].
  intros Hpost. destruct (Hdec r Hin Hpost) as (_ & _ & Hp).
  rewrite Hp.
  pose proof (Rmin_l (salaryBasis r) (annualWithdrawal d)) as Hmin.
  unfold Math_min. repeat split; lra.
Qed.

Lemma C3_balance_never_negative_witness :
  exists r,
    nth_error (simulateYearly retired) 0 = Some r
    /\ 0 <= balance r
    /\ payout r <= salaryBasis r.
Proof.
  destruct (nth_error (simulateYearly retired) 0) as [r |] eqn:E.
  - exists r. split; [reflexivity |].
    assert (Hrows := C3_balance_never_negative retired).
    rewrite Forall_forall in Hrows.
    destruct (Hrows ltac:(eval_totals; lra) ltac:(eval_totals; lra)
                    ltac:(eval_totals; lra) ltac:(eval_totals; lra)
                    ltac:(simpl; lra) ltac:(simpl; lra)
                    r (nth_error_In _ _ E)) as [Hbal Hpay].
    split; [exact Hbal |].
    apply Hpay.
    destruct (simulateYearly_nth_year retired 0 r E) as [-> _].
    vm_compute. reflexivity.
  - apply nth_error_None in E. rewrite simulateYearly_length in E.
    vm_compute in E. lia.
Defined.

End SimulatorClaims.

Section BoundaryClaims.

Import RetirementCalculator.

Lemma nth_error_simulateYearly_defined (d : RetirementData) (n : nat) :
  (Z.of_nat n <= totalYears d)%Z ->
  exists r, nth_error (simulateYearly d) n = Some r.
Proof.
  intros Hn.
  destruct (nth_error (simulateYearly d) n) as [r |] eqn:E.
  - exists r. reflexivity.
  - apply nth_error_None in E. rewrite simulateYearly_length in E. lia.
Qed.




(** C8 (as stated, refuted).  In scenario A the balance of row 1 is
    12876.48: row 0 already is the first accumulation year, and row 1 the
    second. *)
Lemma C8_counterexample :
  exists r1,
    nth_error (simulateYearly scenarioA) 1 = Some r1
    /\ balance r1 = 1287648 / 100
    /\ balance r1 <> (10000 + 1200) * (102 / 100).
Proof.
  destruct (nth_error_simulateYearly_defined scenarioA 1) as [r1 E];
    [vm_compute; discriminate |].
  exists r1. split; [exact E |].
  pose proof (simulateYearly_row1 scenarioA r1 E) as Hr1.
  destruct (loopBody_accumulation scenarioA 0 (totalSavings scenarioA)
              (totalInvestments scenarioA + total401k scenarioA
               + totalRothIRA scenarioA)) as (_ & _ & _ & Hnext);
    [vm_compute; discriminate |].
  rewrite Hnext in Hr1. cbn [fst snd] in Hr1.
  assert (Hbal : balance r1 = 1287648 / 100).
  { rewrite Hr1, loopBody_balance.
    match goal with
    | |- context [loopBody scenarioA 1 ?bs ?bi] =>
        destruct (loopBody_accumulation scenarioA 1 bs bi)
        as (_ & _ & _ & ->); [vm_compute; discriminate |]
    end.
    cbn [fst snd]. eval_totals. lra. }
  rewrite Hbal. split; [reflexivity | lra].
Qed.

(** C8 (amended).  In scenario A, where nothing is withdrawn, it is row 0
    whose balance is (10000 + 1200) * 1.02 = 11424.00; row 1 holds
    (11424 + 1200) * 1.02 = 12876.48. *)
Theorem C8_scenarioA_rows :
  annualWithdrawal scenarioA = 0
  /\ exists r0 r1,
      nth_error (simulateYearly scenarioA) 0 = Some r0
      /\ nth_error (simulateYearly scenarioA) 1 = Some r1
      /\ balance r0 = (10000 + 1200) * (102 / 100)
      /\ balance r0 = 11424
      /\ balance r1 = (11424 + 1200) * (102 / 100)
      /\ balance r1 = 1287648 / 100.
Proof.
  split; [unfold annualWithdrawal; simpl withdrawalRate; lra |].
  destruct (nth_error_simulateYearly_defined scenarioA 0) as [r0 E0];
    [vm_compute; discriminate |].
  destruct (nth_error_simulateYearly_defined scenarioA 1) as [r1 E1];
    [vm_compute; discriminate |].
  exists r0, r1. split; [exact E0 |]. split; [exact E1 |].
  pose proof (simulateYearly_row0 scenarioA r0 E0) as Hr0.
  pose proof (simulateYearly_row1 scenarioA r1 E1) as Hr1.
  destruct (loopBody_accumulation scenarioA 0 (totalSavings scenarioA)
              (totalInvestments scenarioA + total401k scenarioA
               + totalRothIRA scenarioA)) as (_ & _ & _ & Hnext);
    [vm_compute; discriminate |].
  assert (Hbal0 : balance r0 = 11424).
  { rewrite Hr0, loopBody_balance, Hnext. cbn [fst snd].
    eval_totals. lra. }
  assert (Hbal1 : balance r1 = 1287648 / 100).
  { rewrite Hnext in Hr1. cbn [fst snd] in Hr1.
    rewrite Hr1, loopBody_balance.
    match goal with
    | |- context [loopBody scenarioA 1 ?bs ?bi] =>
        destruct (loopBody_accumulation scenarioA 1 bs bi)
        as (_ & _ & _ & ->); [vm_compute; discriminate |]
    end.
    cbn [fst snd]. eval_totals. lra. }
  rewrite Hbal0, Hbal1. repeat split; lra.
Qed.

End BoundaryClaims.

(** ** Every projection series *)

(** The yearly table has one row per year offset from 0 to
    [endAge - currentAge], in order, each carrying its offset and the age
    reached. *)
Lemma simulateYearly_rows (d : RetirementCalculator.RetirementData) :
  List.length (RetirementCalculator.simulateYearly d)
  = Z.to_nat (RetirementCalculator.endAge
              - RetirementCalculator.currentAge d + 1)
  /\ forall n r,
      nth_error (RetirementCalculator.simulateYearly d) n = Some r ->
      RetirementCalculator.year r = Z.of_nat n
      /\ RetirementCalculator.age r
         = (RetirementCalculator.currentAge d + Z.of_nat n)%Z.
Proof.
  split.
  - apply simulateYearly_length.
  - apply simulateYearly_nth_year.
Qed.

(** C9 (the chart series breaks it).  For the planner as it starts (age 30,
    retirement and view age 65) [generateProjections] returns 67 rows, for
    the year offsets 0 to 66 and the ages 30 to 96: its loop runs to the age
    bound [maxAge] used as a year offset, not over the 35 years that
    separate the current age from the view age. *)
Theorem C9_chart_row_count :
  exists rows,
    GrowthProjection.generateProjections plannerChart = Some rows
    /\ List.length rows = 67%nat
    /\ Z.of_nat (List.length rows) <> (65 - 30 + 1)%Z
    /\ forall n r,
        nth_error rows n = Some r ->
        GrowthProjection.year r = Z.of_nat n
        /\ GrowthProjection.age r = (30 + Z.of_nat n)%Z.
Proof.
  destruct (generateProjections_rows plannerChart)
    as (rows & Hgen & Hlen & Hyears).
  { left. unfold GrowthProjection.yearsToRetirement. simpl. lia. }
  exists rows. split; [exact Hgen |].
  assert (H67 : List.length rows = 67%nat) by (rewrite Hlen; reflexivity).
  split; [exact H67 |].
  split; [rewrite H67; discriminate |].
  exact Hyears.
Qed.

(** * Further properties of the code *)

(** ** The closed-form helpers *)

(** X1.  Without growth the helpers return the principal plus the
    contributions paid in: [P + m * y * 12], for the GrowthProjection helper
    from zero years on and for the RetirementCalculator helper for every
    positive span. *)
Theorem X1_zero_rate_is_savings_only (P m y : R) :
  0 <= y ->
  GrowthProjection.calculateFutureValue P m 0 y = P + m * y * 12
  /\ (0 < y ->
      RetirementCalculator.calculateFutureValue P m 0 y = P + m * y * 12).
Proof.
  intros Hy.
  assert (Hpos : 0 < y ->
                 GrowthProjection.calculateFutureValue P m 0 y
                 = P + m * y * 12).
  { intros H. rewrite GrowthProjection_calculateFutureValue_pos by exact H.
    replace (1 + 0) with 1 by ring. rewrite Math_pow_base_1.
    unfold annuityTerm. destruct (Rgt_dec (0 / 12) 0) as [Hp | _]; lra. }
  split.
  - destruct (Rle_lt_or_eq_dec 0 y Hy) as [H | H].
    + apply Hpos. exact H.
    + subst y.
      rewrite GrowthProjection_calculateFutureValue_nonpos by lra. ring.
  - intros H. rewrite calculateFutureValue_agree_pos by exact H.
    apply Hpos. exact H.
Qed.

Lemma X1_zero_rate_is_savings_only_witness :
  0 <= 10
  /\ GrowthProjection.calculateFutureValue 1000 100 0 10 = 13000
  /\ RetirementCalculator.calculateFutureValue 1000 100 0 10 = 13000.
Proof.
  split; [lra |].
  destruct (X1_zero_rate_is_savings_only 1000 100 10) as [HG HR]; [lra |].
  rewrite HG, HR by lra. split; lra.
Defined.

(** X2.  Both helpers are additive in the pair (principal, monthly
    contribution): projecting a bucket's totals is projecting each account
    of the bucket and adding up. *)
Theorem X2_future_value_additive (P1 m1 P2 m2 r y : R) :
  RetirementCalculator.calculateFutureValue (P1 + P2) (m1 + m2) r y
  = RetirementCalculator.calculateFutureValue P1 m1 r y
    + RetirementCalculator.calculateFutureValue P2 m2 r y
  /\ GrowthProjection.calculateFutureValue (P1 + P2) (m1 + m2) r y
     = GrowthProjection.calculateFutureValue P1 m1 r y
       + GrowthProjection.calculateFutureValue P2 m2 r y.
Proof.
  destruct (Rle_dec y 0) as [Hy | Hy].
  - rewrite !RetirementCalculator_calculateFutureValue_nonpos by exact Hy.
    rewrite !GrowthProjection_calculateFutureValue_nonpos by exact Hy.
    split; ring.
  - apply Rnot_le_lt in Hy.
    rewrite !RetirementCalculator_calculateFutureValue_pos by exact Hy.
    rewrite !GrowthProjection_calculateFutureValue_pos by exact Hy.
    assert (Hann : annuityTerm (m1 + m2) r y
                   = annuityTerm m1 r y + annuityTerm m2 r y).
    { unfold annuityTerm.
      destruct (Rgt_dec (r / 12) 0) as [Hp | _]; [| ring].
      unfold Rdiv. ring. }
    rewrite Hann. split; ring.
Qed.

(** X3.  For a whole number [n] of years and a non-negative rate, both
    helpers return the principal compounded [n] times plus what [12 * n]
    deposits of the monthly contribution, each made at the end of its month
    and compounded monthly from then on, add up to. *)
Theorem X3_future_value_by_deposits (P m r : R) (n : nat) :
  (0 < n)%nat -> 0 <= r ->
  RetirementCalculator.calculateFutureValue P m r (INR n)
  = P * (1 + r) ^ n + annuity_by_deposits m (r / 12) (12 * n)
  /\ GrowthProjection.calculateFutureValue P m r (INR n)
     = P * (1 + r) ^ n + annuity_by_deposits m (r / 12) (12 * n).
Proof.
  intros Hn Hr.
  assert (Hy : 0 < INR n) by (apply lt_0_INR; exact Hn).
  rewrite calculateFutureValue_agree_pos by exact Hy.
  rewrite GrowthProjection_calculateFutureValue_pos by exact Hy.
  rewrite Math_pow_INR.
  assert (Hann : annuityTerm m r (INR n)
                 = annuity_by_deposits m (r / 12) (12 * n)).
  { unfold annuityTerm.
    replace (INR n * 12) with (INR (12 * n))
      by (rewrite mult_INR, INR_IZR_INZ; simpl; ring).
    destruct (Rgt_dec (r / 12) 0) as [Hp | Hnp].
    - symmetry. apply annuity_by_deposits_closed_form. lra.
    - replace (r / 12) with 0 by lra.
      symmetry. apply annuity_by_deposits_zero_rate. }
  rewrite Hann. split; reflexivity.
Qed.

Lemma X3_future_value_by_deposits_witness :
  (0 < 1)%nat /\ 0 <= 0
  /\ RetirementCalculator.calculateFutureValue 1000 100 0 (INR 1)
     = 1000 * (1 + 0) ^ 1 + annuity_by_deposits 100 (0 / 12) (12 * 1).
Proof.
  split; [lia |]. split; [lra |].
  apply (X3_future_value_by_deposits 1000 100 0 1); [lia | lra].
Defined.

Lemma RetirementCalculator_calculateFutureValue_ge_principal (P m r y : R) :
  0 <= P -> 0 <= m -> 0 <= r ->
  P <= RetirementCalculator.calculateFutureValue P m r y.
Proof.
  intros HP Hm Hr. destruct (Rle_dec y 0) as [Hy | Hy].
  - rewrite RetirementCalculator_calculateFutureValue_nonpos by exact Hy. lra.
  - apply Rnot_le_lt in Hy.
    rewrite RetirementCalculator_calculateFutureValue_pos by exact Hy.
    pose proof (principalTerm_ge P r y HP Hr (Rlt_le _ _ Hy)).
    pose proof (annuityTerm_nonneg m r y Hm Hr (Rlt_le _ _ Hy)).
    lra.
Qed.

(** X4.  With non-negative bucket totals, contributions and growth rates,
    the projected total at retirement is never below today's total,
    whatever the two ages are. *)
Theorem X4_projection_not_below_today
        (d : RetirementCalculator.RetirementData) :
  0 <= RetirementCalculator.totalSavings d ->
  0 <= RetirementCalculator.totalInvestments d
       + RetirementCalculator.total401k d
       + RetirementCalculator.totalRothIRA d ->
  0 <= RetirementCalculator.monthlyContributionsSavings d ->
  0 <= RetirementCalculator.monthlyContributionsInvestment d
       + RetirementCalculator.monthlyContributions401k d
       + RetirementCalculator.monthlyContributionsRothIRA d ->
  0 <= RetirementCalculator.savingsRate d ->
  0 <= RetirementCalculator.investmentRate d ->
  RetirementCalculator.totalAmount d <= RetirementCalculator.projectedTotal d.
Proof.
  intros Hs Hi Hms Hmi Hrs Hri.
  unfold RetirementCalculator.totalAmount, RetirementCalculator.projectedTotal,
    RetirementCalculator.projectedInvestmentValue,
    RetirementCalculator.projectedSavings.
  pose proof (RetirementCalculator_calculateFutureValue_ge_principal
                _ _ (RetirementCalculator.investmentGrowthRate d)
                (IZR (RetirementCalculator.yearsToRetirement d)) Hi Hmi) as H1.
  pose proof (RetirementCalculator_calculateFutureValue_ge_principal
                _ _ (RetirementCalculator.savingsGrowthRate d)
                (IZR (RetirementCalculator.yearsToRetirement d)) Hs Hms) as H2.
  unfold RetirementCalculator.investmentGrowthRate in H1 at 1.
  unfold RetirementCalculator.savingsGrowthRate in H2 at 1.
  lra.
Qed.

Lemma X4_projection_not_below_today_witness :
  RetirementCalculator.totalAmount planner
  <= RetirementCalculator.projectedTotal planner.
Proof.
  apply X4_projection_not_below_today; try (eval_totals; lra); simpl; lra.
Defined.

(** ** The list of accounts *)

Lemma fold_left_sum_shift (f : Account -> R) (l : list Account) (acc : R) :
  fold_left (fun sum a => sum + f a) l acc
  = acc + fold_left (fun sum a => sum + f a) l 0.
Proof.
  revert acc. induction l as [| a l IH]; intros acc.
  - simpl. ring.
  - simpl. rewrite (IH (acc + f a)), (IH (0 + f a)). ring.
Qed.

Lemma sumByType_cons (t : AccountType) (f : Account -> R) (a : Account)
      (l : list Account) :
  sumByType t f (a :: l)
  = (if AccountType_eqb (type a) t then f a else 0) + sumByType t f l.
Proof.
  unfold sumByType. simpl.
  destruct (AccountType_eqb (type a) t).
  - simpl. rewrite fold_left_sum_shift. ring.
  - ring.
Qed.

Lemma sumByType_app (t : AccountType) (f : Account -> R)
      (l1 l2 : list Account) :
  sumByType t f (l1 ++ l2) = sumByType t f l1 + sumByType t f l2.
Proof.
  induction l1 as [| a l1 IH].
  - simpl. unfold sumByType at 2. simpl. ring.
  - simpl. rewrite !sumByType_cons, IH. ring.
Qed.

Lemma sum_of_all_types (f : Account -> R) (l : list Account) :
  sumByType savings f l + sumByType investment f l + sumByType k401 f l
  + sumByType roth_ira f l
  = fold_left (fun sum a => sum + f a) l 0.
Proof.
  induction l as [| a l IH].
  - unfold sumByType. simpl. ring.
  - rewrite !sumByType_cons. simpl fold_left.
    rewrite fold_left_sum_shift, <- IH.
    destruct (type a); simpl; ring.
Qed.

(** X5.  The four per-type totals partition the accounts: "Total Today" is
    the sum of the amounts of all accounts, each counted once. *)
Theorem X5_totalAmount_counts_every_account
        (d : RetirementCalculator.RetirementData) :
  RetirementCalculator.totalAmount d
  = fold_left (fun sum a => sum + amount a)
              (RetirementCalculator.accounts d) 0.
Proof.
  unfold RetirementCalculator.totalAmount, RetirementCalculator.totalSavings,
    RetirementCalculator.totalInvestments, RetirementCalculator.total401k,
    RetirementCalculator.totalRothIRA.
  apply sum_of_all_types.
Qed.

(** X6.  [addAccount] adds the new account's amount and monthly
    contribution to the totals of its own type and leaves the totals of the
    other types as they were. *)
Theorem X6_addAccount_totals (now : string)
        (account : RetirementCalculator.NewAccount)
        (accounts : list Account) (t : AccountType) :
  sumByType t amount (RetirementCalculator.addAccount now account accounts)
  = sumByType t amount accounts
    + (if AccountType_eqb (RetirementCalculator.new_type account) t
       then RetirementCalculator.new_amount account else 0)
  /\ sumByType t monthlyContribution
               (RetirementCalculator.addAccount now account accounts)
     = sumByType t monthlyContribution accounts
       + (if AccountType_eqb (RetirementCalculator.new_type account) t
          then RetirementCalculator.new_monthlyContribution account else 0).
Proof.
  unfold RetirementCalculator.addAccount.
  rewrite !sumByType_app, !sumByType_cons.
  assert (Hnil : forall f, sumByType t f [] = 0) by reflexivity.
  rewrite !Hnil. cbn [type amount monthlyContribution].
  destruct (AccountType_eqb (RetirementCalculator.new_type account) t);
    split; ring.
Qed.

Lemma deleteAccount_absent_id (id0 : string) (accounts : list Account) :
  (forall a, In a accounts -> id a <> id0) ->
  RetirementCalculator.deleteAccount id0 accounts = accounts.
Proof.
  intros Hfresh. unfold RetirementCalculator.deleteAccount.
  induction accounts as [| a l IH].
  - reflexivity.
  - simpl.
    assert (Ha : String.eqb (id a) id0 = false).
    { apply String.eqb_neq. apply Hfresh. left. reflexivity. }
    rewrite Ha. simpl. f_equal. apply IH.
    intros b Hb. apply Hfresh. right. exact Hb.
Qed.

(** X7.  Deleting the account just added gives back the list as it was,
    provided no older account carries the same id (the clock reading in
    milliseconds). *)
Theorem X7_delete_after_add (now : string)
        (account : RetirementCalculator.NewAccount)
        (accounts : list Account) :
  (forall a, In a accounts -> id a <> now) ->
  RetirementCalculator.deleteAccount
    now (RetirementCalculator.addAccount now account accounts)
  = accounts.
Proof.
  intros Hfresh.
  rewrite <- (deleteAccount_absent_id now accounts Hfresh) at 2.
  unfold RetirementCalculator.deleteAccount, RetirementCalculator.addAccount.
  rewrite filter_app. simpl. rewrite String.eqb_refl. simpl.
  apply app_nil_r.
Qed.

Lemma X7_delete_after_add_witness :
  RetirementCalculator.deleteAccount
    "2" (RetirementCalculator.addAccount
           "2" (RetirementCalculator.mkNewAccount "Broker" investment 500 50)
           [cashAccount 1000 100])
  = [cashAccount 1000 100].
Proof.
  apply X7_delete_after_add.
  intros a [<- | []]. simpl. discriminate.
Defined.

(** X8.  [deleteAccount] removes every account that carries the id, not
    only one: when two accounts were added within the same millisecond,
    deleting either deletes both. *)
Theorem X8_delete_removes_all_with_id (id0 : string)
        (accounts : list Account) :
  (forall a, In a (RetirementCalculator.deleteAccount id0 accounts) ->
             In a accounts /\ id a <> id0)
  /\ (forall a, In a accounts -> id a <> id0 ->
                In a (RetirementCalculator.deleteAccount id0 accounts))
  /\ (forall now n1 n2,
         (forall a, In a accounts -> id a <> now) ->
         RetirementCalculator.deleteAccount
           now (RetirementCalculator.addAccount
                  now n2 (RetirementCalculator.addAccount now n1 accounts))
         = accounts).
Proof.
  unfold RetirementCalculator.deleteAccount.
  split; [| split].
  - intros a Ha. apply filter_In in Ha. destruct Ha as [Hin Hne].
    split; [exact Hin |].
    apply String.eqb_neq. destruct (String.eqb (id a) id0); [discriminate |].
    reflexivity.
  - intros a Hin Hne. apply filter_In. split; [exact Hin |].
    apply String.eqb_neq in Hne. rewrite Hne. reflexivity.
  - intros now n1 n2 Hfresh.
    rewrite <- (deleteAccount_absent_id now accounts Hfresh) at 2.
    unfold RetirementCalculator.deleteAccount, RetirementCalculator.addAccount.
    rewrite !filter_app. simpl. rewrite String.eqb_refl. simpl.
    rewrite !app_nil_r. reflexivity.
Qed.

Lemma X8_delete_removes_all_with_id_witness :
  RetirementCalculator.deleteAccount
    "2" (RetirementCalculator.addAccount
           "2" (RetirementCalculator.mkNewAccount "Pension" k401 700 70)
           (RetirementCalculator.addAccount
              "2" (RetirementCalculator.mkNewAccount "Broker" investment 500 50)
              [cashAccount 1000 100]))
  = [cashAccount 1000 100].
Proof.
  apply (proj2 (proj2 (X8_delete_removes_all_with_id
                         "2" [cashAccount 1000 100]))).
  intros a [<- | []]. simpl. discriminate.
Defined.

Lemma updateAccount_absent_id (id0 : string)
      (updates : RetirementCalculator.AccountUpdates)
      (accounts : list Account) :
  (forall a, In a accounts -> id a <> id0) ->
  RetirementCalculator.updateAccount id0 updates accounts = accounts.
Proof.
  intros Hfresh. unfold RetirementCalculator.updateAccount.
  induction accounts as [| a l IH].
  - reflexivity.
  - simpl.
    assert (Ha : String.eqb (id a) id0 = false).
    { apply String.eqb_neq. apply Hfresh. left. reflexivity. }
    rewrite Ha. f_equal. apply IH.
    intros b Hb. apply Hfresh. right. exact Hb.
Qed.

(** X9.  With unique ids, editing the amount of an account in the list
    changes the total of that account's type by the difference between the
    new and the old amount, and no other type's total. *)
Theorem X9_amount_edit_moves_total (id0 : string) (v : R)
        (accounts : list Account) (a : Account) (t : AccountType) :
  NoDup (map id accounts) -> In a accounts -> id a = id0 ->
  sumByType t amount
            (RetirementCalculator.updateAccount
               id0 (RetirementCalculator.amountUpdate v) accounts)
  = sumByType t amount accounts
    + (if AccountType_eqb (type a) t then v - amount a else 0).
Proof.
  intros Hnd Hin Hid.
  induction accounts as [| b l IH]; [contradiction |].
  simpl in Hnd. inversion Hnd as [| ? ? Hnotin Hnd']; subst.
  destruct Hin as [-> | Hin].
  - unfold RetirementCalculator.updateAccount. simpl map.
    rewrite String.eqb_refl.
    fold (RetirementCalculator.updateAccount
            (id a) (RetirementCalculator.amountUpdate v) l).
    rewrite updateAccount_absent_id.
    + rewrite !sumByType_cons. simpl.
      destruct (AccountType_eqb (type a) t); ring.
    + intros c Hc Heq. apply Hnotin. rewrite <- Heq. apply in_map. exact Hc.
  - assert (Hb : String.eqb (id b) (id a) = false).
    { apply String.eqb_neq. intros Heq. apply Hnotin. rewrite Heq.
      apply in_map. exact Hin. }
    unfold RetirementCalculator.updateAccount. simpl map. rewrite Hb.
    fold (RetirementCalculator.updateAccount
            (id a) (RetirementCalculator.amountUpdate v) l).
    rewrite !sumByType_cons, IH by assumption. ring.
Qed.

Lemma X9_amount_edit_moves_total_witness :
  sumByType savings amount
            (RetirementCalculator.updateAccount
               "1" (RetirementCalculator.amountUpdate 1500)
               [cashAccount 1000 100])
  = sumByType savings amount [cashAccount 1000 100] + (1500 - 1000).
Proof.
  apply (X9_amount_edit_moves_total "1" 1500 [cashAccount 1000 100]
                                    (cashAccount 1000 100) savings).
  - simpl. constructor; [intros [] | constructor].
  - left. reflexivity.
  - reflexivity.
Defined.

(** X10.  The two updates the list editor sends (a new amount, a new monthly
    contribution) never change which accounts there are: the ids, names and
    types stay as they were, in the same order; and an update for an id that
    no account carries changes nothing at all. *)
Theorem X10_editor_updates_keep_accounts (id0 : string) (v : R)
        (accounts : list Account) :
  (forall updates,
      updates = RetirementCalculator.amountUpdate v
      \/ updates = RetirementCalculator.monthlyUpdate v ->
      let accounts' :=
        RetirementCalculator.updateAccount id0 updates accounts in
      map id accounts' = map id accounts
      /\ map name accounts' = map name accounts
      /\ map type accounts' = map type accounts)
  /\ (forall updates,
         (forall a, In a accounts -> id a <> id0) ->
         RetirementCalculator.updateAccount id0 updates accounts = accounts).
Proof.
  split; [| intros updates; apply updateAccount_absent_id].
  intros updates Hupd accounts'. subst accounts'.
  unfold RetirementCalculator.updateAccount.
  rewrite !map_map.
  repeat split; apply map_ext; intros a;
    destruct (String.eqb (id a) id0); try reflexivity;
    destruct Hupd as [-> | ->]; reflexivity.
Qed.

Lemma X10_editor_updates_keep_accounts_witness :
  map id (RetirementCalculator.updateAccount
            "1" (RetirementCalculator.monthlyUpdate 250)
            [cashAccount 1000 100])
  = map id [cashAccount 1000 100]
  /\ RetirementCalculator.updateAccount
       "7" (RetirementCalculator.amountUpdate 250) [cashAccount 1000 100]
     = [cashAccount 1000 100].
Proof.
  destruct (X10_editor_updates_keep_accounts "1" 250 [cashAccount 1000 100])
    as [Hkeep _].
  destruct (X10_editor_updates_keep_accounts "7" 250 [cashAccount 1000 100])
    as [_ Habsent].
  split.
  - apply (Hkeep (RetirementCalculator.monthlyUpdate 250)). right. reflexivity.
  - apply Habsent. intros a [<- | []]. simpl. discriminate.
Defined.

(** ** The yearly table, row by row *)

Section TableRows.

Import RetirementCalculator.
Variable d : RetirementData.

Lemma balancesAfter_S (n : nat) (y : Z) (bs bi : R) :
  balancesAfter d (S n) y bs bi
  = snd (loopBody d (y + Z.of_nat n)
                  (fst (balancesAfter d n y bs bi))
                  (snd (balancesAfter d n y bs bi))).
Proof.
  revert y bs bi. induction n as [| n IH]; intros y bs bi.
  - simpl. replace (y + 0)%Z with y by lia.
    destruct (snd (loopBody d y bs bi)). reflexivity.
  - change (balancesAfter d (S (S n)) y bs bi)
      with (balancesAfter d (S n) (y + 1)%Z
                          (fst (snd (loopBody d y bs bi)))
                          (snd (snd (loopBody d y bs bi)))).
    rewrite IH.
    replace (y + 1 + Z.of_nat n)%Z with (y + Z.of_nat (S n))%Z by lia.
    reflexivity.
Qed.

(** Row [n] of the loop is the iteration at offset [y + n], entered with
    the balances the [n] earlier iterations left. *)
Lemma loop_nth (fuel : nat) (y : Z) (bs bi : R) (n : nat) (r : Row) :
  nth_error (loop d fuel y bs bi) n = Some r ->
  r = fst (loopBody d (y + Z.of_nat n)
                    (fst (balancesAfter d n y bs bi))
                    (snd (balancesAfter d n y bs bi))).
Proof.
  revert y bs bi n. induction fuel as [| fuel IH]; intros y bs bi n Hn.
  - destruct n; discriminate.
  - destruct (Z_le_gt_dec y (totalYears d)) as [Hy | Hy].
    + rewrite loop_S in Hn by exact Hy.
      destruct n as [| n]; simpl in Hn.
      * injection Hn as <-. simpl. replace (y + 0)%Z with y by lia.
        reflexivity.
      * apply IH in Hn. rewrite Hn.
        replace (y + 1 + Z.of_nat n)%Z with (y + Z.of_nat (S n))%Z by lia.
        reflexivity.
    + rewrite loop_past_end in Hn by lia. destruct n; discriminate.
Qed.

Lemma simulateYearly_nth (n : nat) (r : Row) :
  nth_error (simulateYearly d) n = Some r ->
  r = fst (loopBody d (Z.of_nat n)
             (fst (balancesAfter d n 0 (totalSavings d)
                     (totalInvestments d + total401k d + totalRothIRA d)))
             (snd (balancesAfter d n 0 (totalSavings d)
                     (totalInvestments d + total401k d + totalRothIRA d)))).
Proof.
  intros Hn. unfold simulateYearly in Hn. apply loop_nth in Hn.
  exact Hn.
Qed.

(** The books of one iteration balance, in either phase. *)
Lemma loopBody_books (y : Z) (bs bi : R) :
  let r := fst (loopBody d y bs bi) in
  balance r
  = salaryBasis r + annualContribution r - payout r + interestEarned r
  /\ employerMatch r = 0.
Proof.
  unfold loopBody.
  destruct (y <=? yearsToRetirement d)%Z; simpl.
  - split; [ring | reflexivity].
  - split; [| reflexivity].
    assert (Hmax : Math_max 0 (bs + bi
                               - Math_min (bs + bi) (annualWithdrawal d))
                   = bs + bi - Math_min (bs + bi) (annualWithdrawal d)).
    { unfold Math_max, Math_min. apply Rmax_right.
      pose proof (Rmin_l (bs + bi) (annualWithdrawal d)). lra. }
    rewrite Hmax. ring.
Qed.

(** The blended return of an iteration entered with non-negative balances
    lies between the two rates. *)
Lemma loopBody_returnPct (y : Z) (bs bi : R) :
  0 <= bs -> 0 <= bi ->
  Rmin (savingsRate d) (investmentRate d)
  <= returnPct (fst (loopBody d y bs bi))
  <= Rmax (savingsRate d) (investmentRate d).
Proof.
  intros Hbs Hbi.
  assert (Hret : returnPct (fst (loopBody d y bs bi))
                 = (if Rgt_dec (bs + bi) 0
                    then bs / (bs + bi) * savingsGrowthRate d
                         + bi / (bs + bi) * investmentGrowthRate d
                    else (investmentGrowthRate d + savingsGrowthRate d) / 2)
                   * 100).
  { unfold loopBody. destruct (y <=? yearsToRetirement d)%Z; reflexivity. }
  rewrite Hret. unfold savingsGrowthRate, investmentGrowthRate.
  pose proof (Rmin_l (savingsRate d) (investmentRate d)) as Hl1.
  pose proof (Rmin_r (savingsRate d) (investmentRate d)) as Hl2.
  pose proof (Rmax_l (savingsRate d) (investmentRate d)) as Hu1.
  pose proof (Rmax_r (savingsRate d) (investmentRate d)) as Hu2.
  generalize dependent (Rmin (savingsRate d) (investmentRate d)).
  generalize dependent (Rmax (savingsRate d) (investmentRate d)).
  intros hi Hu1 Hu2 lo Hl1 Hl2.
  destruct (Rgt_dec (bs + bi) 0) as [Hpos | _]; [| lra].
  set (ws := bs / (bs + bi)). set (wi := bi / (bs + bi)).
  assert (Hinv : 0 < / (bs + bi)) by (apply Rinv_0_lt_compat; lra).
  assert (Hws : 0 <= ws) by (unfold ws, Rdiv; apply Rmult_le_pos; lra).
  assert (Hwi : 0 <= wi) by (unfold wi, Rdiv; apply Rmult_le_pos; lra).
  assert (Hsum : ws + wi = 1) by (unfold ws, wi; field; lra).
  replace ((ws * (savingsRate d / 100) + wi * (investmentRate d / 100)) * 100)
    with (ws * savingsRate d + wi * investmentRate d) by field.
  split; nra.
Qed.

(** Interest is never negative, and an accumulation iteration never lowers
    the total, when balances, contributions and rates are non-negative. *)
Lemma loopBody_interest_nonneg (y : Z) (bs bi : R) :
  0 <= annualContribSavings d -> 0 <= annualContribInvestment d ->
  0 <= savingsGrowthRate d -> 0 <= investmentGrowthRate d ->
  0 <= bs -> 0 <= bi ->
  0 <= interestEarned (fst (loopBody d y bs bi)).
Proof.
  intros Hcs Hci Hgs Hgi Hbs Hbi.
  unfold loopBody.
  destruct (y <=? yearsToRetirement d)%Z; simpl.
  - nra.
  - set (T := Math_max 0 (bs + bi - Math_min (bs + bi) (annualWithdrawal d))).
    assert (HT : 0 <= T) by apply Rmax_l.
    assert (Hratio : 0 <= (if Rgt_dec (bs + bi) 0 then bs / (bs + bi) else / 2)
                     <= 1).
    { destruct (Rgt_dec (bs + bi) 0) as [Hpos | Hzero]; [| lra].
      assert (Hinv : 0 < / (bs + bi)) by (apply Rinv_0_lt_compat; lra).
      assert (Hone : (bs + bi) * / (bs + bi) = 1) by (apply Rinv_r; lra).
      unfold Rdiv. split; nra. }
    generalize dependent (if Rgt_dec (bs + bi) 0 then bs / (bs + bi) else / 2).
    intros w Hw.
    assert (H1 : 0 <= T * w) by (apply Rmult_le_pos; lra).
    assert (H2 : 0 <= T * (1 - w)) by (apply Rmult_le_pos; lra).
    nra.
Qed.

End TableRows.

Section TableProperties.

Import RetirementCalculator.

Lemma simulateYearly_chain (d : RetirementData) (n : nat) (r r' : Row) :
  nth_error (simulateYearly d) n = Some r ->
  nth_error (simulateYearly d) (S n) = Some r' ->
  salaryBasis r' = balance r.
Proof.
  intros Hn HSn.
  pose proof (simulateYearly_nth d n r Hn) as E.
  pose proof (simulateYearly_nth d (S n) r' HSn) as E'.
  rewrite E', E, loopBody_balance.
  match goal with
  | |- context [loopBody d (Z.of_nat (S n)) ?a ?b] =>
      destruct (loopBody_year d (Z.of_nat (S n)) a b) as (_ & _ & ->)
  end.
  rewrite balancesAfter_S.
  replace (0 + Z.of_nat n)%Z with (Z.of_nat n) by lia. reflexivity.
Qed.

(** X11.  The books of every row balance: the closing balance is the
    starting total plus the contributions, less the payout, plus the
    interest earned; and the employer match is always zero. *)
Theorem X11_rows_balance_their_books (d : RetirementData) :
  Forall (fun r =>
            balance r
            = salaryBasis r + annualContribution r - payout r
              + interestEarned r
            /\ employerMatch r = 0)
         (simulateYearly d).
Proof.
  unfold simulateYearly.
  apply (loop_Forall d (fun _ _ => True)); [| exact I].
  intros y bs bi _. split; [| exact I].
  apply (loopBody_books d y bs bi).
Qed.

(** X12.  Each row starts from the balance the row before it ended with. *)
Theorem X12_rows_chain (d : RetirementData) (n : nat) (r r' : Row) :
  nth_error (simulateYearly d) n = Some r ->
  nth_error (simulateYearly d) (S n) = Some r' ->
  salaryBasis r' = balance r.
Proof.
  intros Hn HSn.
  rewrite (simulateYearly_nth d (S n) r' HSn), (simulateYearly_nth d n r Hn).
  rewrite loopBody_balance.
  match goal with
  | |- context [loopBody d (Z.of_nat (S n)) ?a ?b] =>
      destruct (loopBody_year d (Z.of_nat (S n)) a b) as (_ & _ & ->)
  end.
  rewrite balancesAfter_S.
  replace (0 + Z.of_nat n)%Z with (Z.of_nat n) by lia. reflexivity.
Qed.

Lemma X12_rows_chain_witness :
  exists r r',
    nth_error (simulateYearly scenarioA) 0 = Some r
    /\ nth_error (simulateYearly scenarioA) 1 = Some r'
    /\ salaryBasis r' = balance r.
Proof.
  destruct (nth_error_simulateYearly_defined scenarioA 0) as [r E0];
    [vm_compute; discriminate |].
  destruct (nth_error_simulateYearly_defined scenarioA 1) as [r' E1];
    [vm_compute; discriminate |].
  exists r, r'. split; [exact E0 |]. split; [exact E1 |].
  exact (X12_rows_chain scenarioA 0 r r' E0 E1).
Defined.

(** X13.  With non-negative bucket totals, contributions and growth rates,
    the return percentage shown in every row lies between the savings rate
    and the investment rate, and the interest earned is never negative. *)
Theorem X13_return_between_rates (d : RetirementData) :
  0 <= totalSavings d ->
  0 <= totalInvestments d + total401k d + totalRothIRA d ->
  0 <= monthlyContributionsSavings d ->
  0 <= monthlyContributionsInvestment d + monthlyContributions401k d
       + monthlyContributionsRothIRA d ->
  0 <= savingsRate d -> 0 <= investmentRate d ->
  Forall (fun r =>
            Rmin (savingsRate d) (investmentRate d) <= returnPct r
            /\ returnPct r <= Rmax (savingsRate d) (investmentRate d)
            /\ 0 <= interestEarned r)
         (simulateYearly d).
Proof.
  intros Hbs Hbi Hms Hmi Hrs Hri.
  assert (Hcs : 0 <= annualContribSavings d)
    by (unfold annualContribSavings; lra).
  assert (Hci : 0 <= annualContribInvestment d)
    by (unfold annualContribInvestment; lra).
  assert (Hgs : 0 <= savingsGrowthRate d) by (unfold savingsGrowthRate; lra).
  assert (Hgi : 0 <= investmentGrowthRate d)
    by (unfold investmentGrowthRate; lra).
  unfold simulateYearly.
  apply (loop_Forall d (fun bs bi => 0 <= bs /\ 0 <= bi));
    [| split; assumption].
  intros y bs bi [H1 H2]. split.
  - pose proof (loopBody_returnPct d y bs bi H1 H2) as [Hlo Hhi].
    pose proof (loopBody_interest_nonneg d y bs bi Hcs Hci Hgs Hgi H1 H2).
    auto.
  - apply loopBody_nonneg; assumption.
Qed.

Lemma X13_return_between_rates_witness :
  Forall (fun r =>
            Rmin 2 5 <= returnPct r /\ returnPct r <= Rmax 2 5
            /\ 0 <= interestEarned r)
         (simulateYearly planner).
Proof.
  apply (X13_return_between_rates planner);
    try (eval_totals; lra); simpl; lra.
Defined.

(** X14.  Before retirement the table never shows a decline: with
    non-negative bucket totals, contributions and growth rates, a row at or
    before the retirement year closes at least as high as the row before
    it. *)
Theorem X14_accumulation_never_declines (d : RetirementData)
        (n : nat) (r r' : Row) :
  0 <= totalSavings d ->
  0 <= totalInvestments d + total401k d + totalRothIRA d ->
  0 <= monthlyContributionsSavings d ->
  0 <= monthlyContributionsInvestment d + monthlyContributions401k d
       + monthlyContributionsRothIRA d ->
  0 <= savingsRate d -> 0 <= investmentRate d ->
  nth_error (simulateYearly d) n = Some r ->
  nth_error (simulateYearly d) (S n) = Some r' ->
  (Z.of_nat (S n) <= yearsToRetirement d)%Z ->
  balance r <= balance r'.
Proof.
  intros Hbs Hbi Hms Hmi Hrs Hri Hn HSn Hpre.
  pose proof (simulateYearly_chain d n r r' Hn HSn) as Hchain.
  assert (Hcs : 0 <= annualContribSavings d)
    by (unfold annualContribSavings; lra).
  assert (Hci : 0 <= annualContribInvestment d)
    by (unfold annualContribInvestment; lra).
  assert (Hgs : 0 <= savingsGrowthRate d) by (unfold savingsGrowthRate; lra).
  assert (Hgi : 0 <= investmentGrowthRate d)
    by (unfold investmentGrowthRate; lra).
  assert (Hrows : Forall (fun r => 0 <= interestEarned r
                                   /\ balance r
                                      = salaryBasis r + annualContribution r
                                        - payout r + interestEarned r)
                         (simulateYearly d)).
  { unfold simulateYearly.
    apply (loop_Forall d (fun bs bi => 0 <= bs /\ 0 <= bi));
      [| split; assumption].
    intros y bs bi [H1 H2]. split.
    - split.
      + apply loopBody_interest_nonneg; assumption.
      + apply (loopBody_books d y bs bi).
    - apply loopBody_nonneg; assumption. }
  rewrite Forall_forall in Hrows.
  destruct (Hrows r' (nth_error_In _ _ HSn)) as [Hint Hbooks].
  pose proof (simulateYearly_accumulation_rows d) as Hacc.
  rewrite Forall_forall in Hacc.
  destruct (simulateYearly_nth_year d (S n) r' HSn) as [Hyear _].
  destruct (Hacc r' (nth_error_In _ _ HSn)) as (Hc & _ & Hp);
    [rewrite Hyear; exact Hpre |].
  rewrite Hbooks, Hc, Hp, Hchain. lra.
Qed.

Lemma X14_accumulation_never_declines_witness :
  exists r r',
    nth_error (simulateYearly scenarioA) 0 = Some r
    /\ nth_error (simulateYearly scenarioA) 1 = Some r'
    /\ balance r <= balance r'.
Proof.
  destruct (nth_error_simulateYearly_defined scenarioA 0) as [r E0];
    [vm_compute; discriminate |].
  destruct (nth_error_simulateYearly_defined scenarioA 1) as [r' E1];
    [vm_compute; discriminate |].
  exists r, r'. split; [exact E0 |]. split; [exact E1 |].
  apply (X14_accumulation_never_declines scenarioA 0 r r');
    try (eval_totals; lra); try (simpl; lra); try assumption.
  vm_compute. discriminate.
Defined.

End TableProperties.

Section TableScenarios.

Import RetirementCalculator.

Lemma annuityTerm_no_contribution (r y : R) : annuityTerm 0 r y = 0.
Proof.
  unfold annuityTerm. destruct (Rgt_dec (r / 12) 0); unfold Rdiv; ring.
Qed.

Lemma calculateFutureValue_nothing (r y : R) :
  calculateFutureValue 0 0 r y = 0.
Proof.
  destruct (Rle_dec y 0) as [Hy | Hy].
  - rewrite RetirementCalculator_calculateFutureValue_nonpos by exact Hy. ring.
  - apply Rnot_le_lt in Hy.
    rewrite RetirementCalculator_calculateFutureValue_pos by exact Hy.
    rewrite annuityTerm_no_contribution. ring.
Qed.


(** A decumulation iteration entered with nothing, under a non-negative
    withdrawal, pays nothing out and leaves nothing. *)
Lemma loopBody_depleted (d : RetirementData) (y : Z) :
  (yearsToRetirement d < y)%Z -> 0 <= annualWithdrawal d ->
  snd (loopBody d y 0 0) = (0, 0).
Proof.
  intros Hy Haw.
  destruct (loopBody_decumulation d y 0 0 Hy) as (_ & _ & _ & ->).
  assert (HT : Math_max 0 (0 + 0 - Math_min (0 + 0) (annualWithdrawal d)) = 0).
  { unfold Math_max, Math_min. rewrite Rmin_left by lra.
    rewrite Rmax_left by lra. reflexivity. }
  rewrite HT. f_equal; ring.
Qed.


(** X15.  With no accounts, every row of the table is zero throughout:
    starting total, contribution, income, payout, interest and balance,
    whatever the ages and the rates. *)
Theorem X15_no_accounts_all_zero (d : RetirementData) :
  accounts d = [] ->
  annualWithdrawal d = 0
  /\ Forall (fun r =>
               salaryBasis r = 0 /\ annualContribution r = 0
               /\ retirementIncome r = 0 /\ payout r = 0
               /\ interestEarned r = 0 /\ balance r = 0)
            (simulateYearly d).
Proof.
  intros Hnone.
  assert (Hsum : forall t f, sumByType t f (accounts d) = 0)
    by (intros t f; rewrite Hnone; reflexivity).
  assert (Haw : annualWithdrawal d = 0).
  { unfold annualWithdrawal, projectedTotal, projectedInvestmentValue,
      projectedSavings, totalSavings, totalInvestments, total401k,
      totalRothIRA, monthlyContributionsSavings,
      monthlyContributionsInvestment, monthlyContributions401k,
      monthlyContributionsRothIRA.
    rewrite !Hsum. replace (0 + 0 + 0) with 0 by ring.
    rewrite !calculateFutureValue_nothing. ring. }
  assert (Hcs : annualContribSavings d = 0).
  { unfold annualContribSavings, monthlyContributionsSavings.
    rewrite Hsum. ring. }
  assert (Hci : annualContribInvestment d = 0).
  { unfold annualContribInvestment, monthlyContributionsInvestment,
      monthlyContributions401k, monthlyContributionsRothIRA.
    rewrite !Hsum. ring. }
  split; [exact Haw |].
  unfold simulateYearly, totalSavings, totalInvestments, total401k,
    totalRothIRA.
  rewrite !Hsum. replace (0 + 0 + 0) with 0 by ring.
  apply (loop_Forall d (fun bs bi => bs = 0 /\ bi = 0)); [| split; reflexivity].
  intros y bs bi [-> ->].
  assert (Hnext : snd (loopBody d y 0 0) = (0, 0)).
  { destruct (Z_le_gt_dec y (yearsToRetirement d)) as [Hpre | Hpost].
    - destruct (loopBody_accumulation d y 0 0 Hpre) as (_ & _ & _ & ->).
      rewrite Hcs, Hci. f_equal; ring.
    - apply loopBody_depleted; [lia | lra]. }
  destruct (loopBody_year d y 0 0) as (_ & _ & Hbasis).
  pose proof (loopBody_balance d y 0 0) as Hbal.
  destruct (loopBody_books d y 0 0) as [Hbooks _].
  rewrite Hnext in Hbal. simpl in Hbal. rewrite Hnext. simpl.
  assert (Hfields : annualContribution (fst (loopBody d y 0 0)) = 0
                    /\ retirementIncome (fst (loopBody d y 0 0)) = 0
                    /\ payout (fst (loopBody d y 0 0)) = 0).
  { destruct (Z_le_gt_dec y (yearsToRetirement d)) as [Hpre | Hpost].
    - destruct (loopBody_accumulation d y 0 0 Hpre) as (-> & -> & -> & _).
      rewrite Hcs, Hci. repeat split; ring.
    - destruct (loopBody_decumulation d y 0 0) as (-> & -> & -> & _);
        [lia |].
      rewrite Haw. unfold Math_min. rewrite Rmin_left by lra.
      repeat split; ring. }
  destruct Hfields as (Hc & Hi & Hp).
  rewrite Hbasis, Hc, Hp, Hbal in Hbooks.
  repeat split; try assumption; lra.
Qed.

Lemma X15_no_accounts_all_zero_witness :
  Forall (fun r => balance r = 0) (simulateYearly (clearAllData true planner)).
Proof.
  destruct (X15_no_accounts_all_zero (clearAllData true planner)) as [_ Hrows];
    [reflexivity |].
  eapply Forall_impl; [| exact Hrows].
  intros r Hr. apply Hr.
Defined.



End TableScenarios.

Section TableAgainstClosedForm.

Import RetirementCalculator.

(** Without contributions, [k] accumulation iterations compound each
    bucket [k] times. *)
Lemma balancesAfter_compound (d : RetirementData) (k : nat) :
  annualContribSavings d = 0 -> annualContribInvestment d = 0 ->
  (Z.of_nat k <= yearsToRetirement d + 1)%Z ->
  balancesAfter d k 0 (totalSavings d)
                (totalInvestments d + total401k d + totalRothIRA d)
  = (totalSavings d * (1 + savingsGrowthRate d) ^ k,
     (totalInvestments d + total401k d + totalRothIRA d)
     * (1 + investmentGrowthRate d) ^ k).
Proof.
  intros Hcs Hci. induction k as [| k IH]; intros Hk.
  - simpl. f_equal; ring.
  - rewrite balancesAfter_S, IH by lia. cbn [fst snd].
    match goal with
    | |- snd (loopBody d ?y ?bs ?bi) = _ =>
        destruct (loopBody_accumulation d y bs bi) as (_ & _ & _ & ->);
        [lia |]
    end.
    rewrite Hcs, Hci. simpl pow. f_equal; ring.
Qed.

Lemma calculateFutureValue_no_contribution (P r : R) (k : nat) :
  calculateFutureValue P 0 r (INR (S k)) = P * (1 + r) ^ S k.
Proof.
  rewrite RetirementCalculator_calculateFutureValue_pos
    by (apply lt_0_INR; lia).
  rewrite Math_pow_INR, annuityTerm_no_contribution. ring.
Qed.

(** X17.  Without monthly contributions, an accumulation row at year offset
    [n] closes at what the closed-form helper projects for [n + 1] years:
    the table runs one year of growth ahead of the closed form. *)
Theorem X17_table_runs_a_year_ahead (d : RetirementData) (n : nat) (r : Row) :
  monthlyContributionsSavings d = 0 ->
  monthlyContributionsInvestment d + monthlyContributions401k d
  + monthlyContributionsRothIRA d = 0 ->
  (Z.of_nat n <= yearsToRetirement d)%Z ->
  nth_error (simulateYearly d) n = Some r ->
  balance r
  = calculateFutureValue (totalSavings d) 0 (savingsGrowthRate d) (INR (S n))
    + calculateFutureValue
        (totalInvestments d + total401k d + totalRothIRA d) 0
        (investmentGrowthRate d) (INR (S n)).
Proof.
  intros Hms Hmi Hpre Hn.
  assert (Hcs : annualContribSavings d = 0)
    by (unfold annualContribSavings; rewrite Hms; ring).
  assert (Hci : annualContribInvestment d = 0)
    by (unfold annualContribInvestment; rewrite Hmi; ring).
  rewrite !calculateFutureValue_no_contribution.
  rewrite (simulateYearly_nth d n r Hn), loopBody_balance.
  pose proof (balancesAfter_S d n 0 (totalSavings d)
                (totalInvestments d + total401k d + totalRothIRA d)) as HS.
  replace (0 + Z.of_nat n)%Z with (Z.of_nat n) in HS by lia.
  rewrite <- HS, balancesAfter_compound by (try assumption; lia).
  reflexivity.
Qed.

Lemma X17_table_runs_a_year_ahead_witness :
  exists r,
    nth_error (simulateYearly lumpSum) 0 = Some r
    /\ balance r
       = calculateFutureValue (totalSavings lumpSum) 0
                              (savingsGrowthRate lumpSum) (INR 1)
         + calculateFutureValue
             (totalInvestments lumpSum + total401k lumpSum
              + totalRothIRA lumpSum) 0
             (investmentGrowthRate lumpSum) (INR 1).
Proof.
  destruct (nth_error_simulateYearly_defined lumpSum 0) as [r E];
    [vm_compute; discriminate |].
  exists r. split; [exact E |].
  apply (X17_table_runs_a_year_ahead lumpSum 0 r).
  - eval_totals. lra.
  - eval_totals. lra.
  - vm_compute. discriminate.
  - exact E.
Defined.

End TableAgainstClosedForm.

(** ** The chart series, row by row *)

Section ChartRows.

Import GrowthProjection.
Variable p : GrowthProjectionProps.

Lemma loop_prefix (fuel : nat) (y : Z) (projections out : list Projection) :
  loop p fuel y projections = Some out ->
  exists rows, out = projections ++ rows.
Proof.
  revert y projections. induction fuel as [| fuel IH]; intros y projections H.
  - simpl in H. injection H as <-. exists []. symmetry. apply app_nil_r.
  - simpl in H.
    destruct (y <=? maxAge p)%Z.
    + destruct (y <=? yearsToRetirement p)%Z.
      * apply IH in H. destruct H as [rows ->].
        exists (preRetirementRow p y :: rows). rewrite <- app_assoc.
        reflexivity.
      * destruct (nth_error projections (List.length projections - 1))
          as [previousYear |]; [| discriminate].
        apply IH in H. destruct H as [rows ->].
        exists (postRetirementRow p y previousYear :: rows).
        rewrite <- app_assoc. reflexivity.
    + injection H as <-. exists []. symmetry. apply app_nil_r.
Qed.

(** How each row the loop pushes comes about: by the closed form up to the
    retirement year, from the row before it afterwards. *)
Lemma loop_rows (fuel : nat) (y : Z) (projections out : list Projection) :
  Z.of_nat (List.length projections) = y ->
  loop p fuel y projections = Some out ->
  forall k r,
    (List.length projections <= k)%nat ->
    nth_error out k = Some r ->
    ((Z.of_nat k <= yearsToRetirement p)%Z
     /\ r = preRetirementRow p (Z.of_nat k))
    \/ ((yearsToRetirement p < Z.of_nat k)%Z
        /\ exists previousYear,
            (1 <= k)%nat
            /\ nth_error out (k - 1) = Some previousYear
            /\ r = postRetirementRow p (Z.of_nat k) previousYear).
Proof.
  revert y projections.
  induction fuel as [| fuel IH]; intros y projections Hlen H k r Hk Hr.
  - simpl in H. injection H as <-.
    apply nth_error_None in Hk. rewrite Hk in Hr. discriminate.
  - simpl in H.
    destruct (Z.leb_spec y (maxAge p)) as [Hmax | Hmax].
    + destruct (Z.leb_spec y (yearsToRetirement p)) as [Hpre | Hpost].
      * destruct (Nat.eq_dec k (List.length projections)) as [-> | Hne].
        -- left. rewrite Hlen. split; [exact Hpre |].
           destruct (loop_prefix _ _ _ _ H) as [rows ->].
           rewrite <- app_assoc in Hr.
           rewrite nth_error_app2, Nat.sub_diag in Hr by lia.
           simpl in Hr. injection Hr as <-. reflexivity.
        -- apply (IH (y + 1)%Z (projections ++ [preRetirementRow p y]));
             try assumption.
           ++ rewrite length_app. simpl. lia.
           ++ rewrite length_app. simpl. lia.
      * destruct (nth_error projections (List.length projections - 1))
          as [previousYear |] eqn:Hprev; [| discriminate].
        destruct (Nat.eq_dec k (List.length projections)) as [-> | Hne].
        -- right. rewrite Hlen. split; [exact Hpost |].
           exists previousYear.
           assert (Hpos : (1 <= List.length projections)%nat).
           { destruct projections; [discriminate | simpl; lia]. }
           split; [exact Hpos |].
           destruct (loop_prefix _ _ _ _ H) as [rows ->].
           rewrite <- app_assoc in Hr |- *.
           rewrite nth_error_app2, Nat.sub_diag in Hr by lia.
           simpl in Hr. injection Hr as <-.
           rewrite nth_error_app1 by lia. split; [exact Hprev | reflexivity].
        -- apply (IH (y + 1)%Z
                     (projections ++ [postRetirementRow p y previousYear]));
             try assumption.
           ++ rewrite length_app. simpl. lia.
           ++ rewrite length_app. simpl. lia.
    + injection H as <-.
      apply nth_error_None in Hk. rewrite Hk in Hr. discriminate.
Qed.

Lemma generateProjections_row (rows : list Projection) (k : nat)
      (r : Projection) :
  generateProjections p = Some rows ->
  nth_error rows k = Some r ->
  ((Z.of_nat k <= yearsToRetirement p)%Z
   /\ r = preRetirementRow p (Z.of_nat k))
  \/ ((yearsToRetirement p < Z.of_nat k)%Z
      /\ exists previousYear,
          (1 <= k)%nat
          /\ nth_error rows (k - 1) = Some previousYear
          /\ r = postRetirementRow p (Z.of_nat k) previousYear).
Proof.
  intros Hgen Hk. unfold generateProjections in Hgen.
  apply (loop_rows (Z.to_nat (maxAge p + 1)) 0%Z [] rows);
    try assumption.
  - reflexivity.
  - simpl. lia.
Qed.

(** Dividing by a previous total of zero, or by a non-finite one, leaves
    nothing finite in the row. *)
Lemma postRetirementRow_nonfinite (y : Z) (previousYear : Projection) :
  total previousYear = Some 0 \/ total previousYear = None ->
  total (postRetirementRow p y previousYear) = None
  /\ savings (postRetirementRow p y previousYear) = None
  /\ investments (postRetirementRow p y previousYear) = None.
Proof.
  intros Hprev. unfold postRetirementRow.
  destruct Hprev as [-> | ->].
  - destruct (savings previousYear); destruct (investments previousYear);
      try (repeat split; reflexivity).
    destruct (Req_dec_T 0 0) as [_ | Hne]; [| contradiction].
    repeat split; reflexivity.
  - repeat split; reflexivity.
Qed.

End ChartRows.

Lemma Math_round_0 : Math_round 0 = 0.
Proof.
  unfold Math_round. f_equal. symmetry. apply Int_part_spec. lra.
Qed.

Lemma Math_round_IZR (k : Z) : Math_round (IZR k) = IZR k.
Proof.
  unfold Math_round. f_equal. symmetry. apply Int_part_spec. lra.
Qed.

Section ChartProperties.

Import GrowthProjection.

(** X18.  [generateProjections] raises exactly when the retirement age is
    below the current age (its first iteration then reads the last row of
    an empty array); otherwise it returns [maxAge + 1] rows, row [n]
    carrying year offset [n] and age [currentAge + n]. *)
Theorem X18_chart_raises_or_returns (p : GrowthProjectionProps) :
  (generateProjections p = None
   <-> (yearsToRetirement p < 0)%Z /\ (0 <= maxAge p)%Z)
  /\ forall rows,
      generateProjections p = Some rows ->
      List.length rows = Z.to_nat (maxAge p + 1)
      /\ forall n r, nth_error rows n = Some r ->
                     year r = Z.of_nat n
                     /\ age r = (currentAge p + Z.of_nat n)%Z.
Proof.
  split.
  - split.
    + intros Hnone.
      destruct (Z_lt_ge_dec (yearsToRetirement p) 0) as [Hlt | Hge];
        [destruct (Z_le_gt_dec 0 (maxAge p)) as [Hmax | Hmax] |].
      * split; assumption.
      * destruct (generateProjections_rows p) as (rows & Hsome & _);
          [right; lia | congruence].
      * destruct (generateProjections_rows p) as (rows & Hsome & _);
          [left; lia | congruence].
    + intros [Hlt Hmax]. apply generateProjections_raises; assumption.
  - intros rows Hgen.
    destruct (Z_lt_ge_dec (yearsToRetirement p) 0) as [Hlt | Hge];
      [destruct (Z_le_gt_dec 0 (maxAge p)) as [Hmax | Hmax] |].
    + rewrite generateProjections_raises in Hgen by assumption. discriminate.
    + destruct (generateProjections_rows p) as (rows' & Hsome & Hlen & Hyears);
        [right; lia |].
      rewrite Hsome in Hgen. injection Hgen as <-. split; assumption.
    + destruct (generateProjections_rows p) as (rows' & Hsome & Hlen & Hyears);
        [left; lia |].
      rewrite Hsome in Hgen. injection Hgen as <-. split; assumption.
Qed.

Lemma X18_chart_raises_or_returns_witness :
  generateProjections (growthProjectionProps retired 99) = None.
Proof.
  apply (proj1 (X18_chart_raises_or_returns
                  (growthProjectionProps retired 99))).
  unfold yearsToRetirement, maxAge. simpl. lia.
Defined.

(** X19.  While the retirement age is not below the current age, row 0 of
    the chart shows today's figures, rounded: no growth and no contribution
    has been applied to it. *)
Theorem X19_chart_starts_today (p : GrowthProjectionProps)
        (rows : list Projection) (r : Projection) :
  (0 <= yearsToRetirement p)%Z ->
  generateProjections p = Some rows ->
  nth_error rows 0 = Some r ->
  year r = 0%Z /\ age r = currentAge p
  /\ savings r = Some (Math_round (currentSavings p))
  /\ investments r = Some (Math_round (currentInvestments p))
  /\ total r = Some (Math_round (currentSavings p + currentInvestments p)).
Proof.
  intros Hpre Hgen H0.
  destruct (generateProjections_row p rows 0 r Hgen H0)
    as [[_ ->] | [Hpost _]]; [| simpl in Hpost; lia].
  unfold preRetirementRow. simpl.
  rewrite !GrowthProjection_calculateFutureValue_nonpos by lra.
  repeat split. f_equal. lia.
Qed.

Lemma X19_chart_starts_today_witness :
  exists rows r,
    generateProjections plannerChart = Some rows
    /\ nth_error rows 0 = Some r
    /\ monthlySavings plannerChart = 100
    /\ savings r = Some 1000
    /\ investments r = Some 0
    /\ total r = Some 1000.
Proof.
  destruct (generateProjections_rows plannerChart)
    as (rows & Hgen & Hlen & _);
    [left; unfold yearsToRetirement; simpl; lia |].
  assert (Hlong : List.length rows = 67%nat) by (rewrite Hlen; reflexivity).
  destruct (nth_error rows 0) as [r |] eqn:E;
    [| apply nth_error_None in E; lia].
  exists rows, r. split; [exact Hgen |]. split; [exact E |].
  destruct (X19_chart_starts_today plannerChart rows r)
    as (_ & _ & Hs & Hi & Ht);
    [unfold yearsToRetirement; simpl; lia | exact Hgen | exact E |].
  assert (Hcs : currentSavings plannerChart = 1000)
    by (simpl; eval_totals; lra).
  assert (Hci : currentInvestments plannerChart = 0)
    by (simpl; eval_totals; lra).
  rewrite Hcs in Hs, Ht. rewrite Hci in Hi, Ht.
  replace (1000 + 0) with 1000 in Ht by ring.
  rewrite Math_round_IZR in Hs, Hi, Ht.
  split; [unfold monthlySavings; simpl; eval_totals; lra |].
  repeat split; assumption.
Defined.

(** X20.  After retirement the chart does not survive an empty balance.  A
    withdrawal that covers the previous total brings the next row to zero;
    and every row after a total of zero (or after a non-finite one) is
    non-finite in all three figures, to the end of the series. *)
Theorem X20_chart_breaks_after_zero (p : GrowthProjectionProps)
        (rows : list Projection) (n : nat) (previousYear : Projection) :
  generateProjections p = Some rows ->
  nth_error rows n = Some previousYear ->
  (yearsToRetirement p < Z.of_nat (S n))%Z ->
  (forall t s i r,
      total previousYear = Some t -> savings previousYear = Some s ->
      investments previousYear = Some i ->
      t <> 0 ->
      t <= withDefault 0 (projectedAtRetirement p)
           * (withDefault 4 (withdrawalRate p) / 100) ->
      nth_error rows (S n) = Some r ->
      total r = Some 0 /\ savings r = Some 0 /\ investments r = Some 0)
  /\ (total previousYear = Some 0 \/ total previousYear = None ->
      forall m r,
        (n < m)%nat -> nth_error rows m = Some r ->
        total r = None /\ savings r = None /\ investments r = None).
Proof.
  intros Hgen Hn Hpost. split.
  - intros t s i r Ht Hs Hi Hne Haw HSn.
    destruct (generateProjections_row p rows (S n) r Hgen HSn)
      as [[Hpre _] | (_ & prev & _ & Hprev & ->)]; [lia |].
    replace (S n - 1)%nat with n in Hprev by lia.
    rewrite Hn in Hprev. injection Hprev as <-.
    unfold postRetirementRow. rewrite Ht, Hs, Hi.
    destruct (Req_dec_T t 0) as [Hz | _]; [contradiction |].
    assert (Hmax : Math_max 0 (t - withDefault 0 (projectedAtRetirement p)
                                   * (withDefault 4 (withdrawalRate p) / 100))
                   = 0).
    { unfold Math_max. apply Rmax_left. lra. }
    simpl. rewrite Hmax, !Rmult_0_l, Math_round_0. repeat split.
  - intros Hbad m. induction m as [| m IH]; intros r Hlt Hm; [lia |].
    destruct (generateProjections_row p rows (S m) r Hgen Hm)
      as [[Hpre _] | (_ & prev & _ & Hprev & ->)]; [lia |].
    replace (S m - 1)%nat with m in Hprev by lia.
    apply postRetirementRow_nonfinite.
    destruct (Nat.eq_dec m n) as [-> | Hne].
    + rewrite Hn in Hprev. injection Hprev as <-. exact Hbad.
    + right. apply (IH prev); [lia | exact Hprev].
Qed.

Lemma X20_chart_breaks_after_zero_witness :
  exists rows r,
    generateProjections emptyChart = Some rows
    /\ nth_error rows 1 = Some r
    /\ total r = None /\ savings r = None /\ investments r = None.
Proof.
  destruct (generateProjections_rows emptyChart)
    as (rows & Hgen & Hlen & _); [left; vm_compute; discriminate |].
  assert (Hlong : List.length rows = 102%nat)
    by (rewrite Hlen; vm_compute; reflexivity).
  destruct (nth_error rows 0) as [r0 |] eqn:E0;
    [| apply nth_error_None in E0; lia].
  destruct (nth_error rows 1) as [r |] eqn:E1;
    [| apply nth_error_None in E1; lia].
  exists rows, r. split; [exact Hgen |]. split; [exact E1 |].
  destruct (X20_chart_breaks_after_zero emptyChart rows 0 r0 Hgen E0)
    as [_ Hbad]; [vm_compute; reflexivity |].
  apply Hbad with (m := 1%nat); [| lia | exact E1].
  left.
  destruct (generateProjections_row emptyChart rows 0 r0 Hgen E0)
    as [[_ ->] | [Hpost _]]; [| vm_compute in Hpost; discriminate].
  unfold preRetirementRow. simpl total.
  rewrite !GrowthProjection_calculateFutureValue_nonpos by (simpl; lra).
  simpl. replace (0 + 0) with 0 by ring. rewrite Math_round_0. reflexivity.
Defined.

End ChartProperties.

(** ** The bars of RetirementChart *)

(** X21.  The scale of the two bars is 100000 at least, so no width divides
    by zero; and for non-negative figures the two segments of a bar are each
    non-negative and together never wider than the bar (100%), the bar with
    the larger total filling it when that total reaches 100000. *)
Theorem X21_bars_fit (p : RetirementChart.RetirementChartProps) :
  100000 <= RetirementChart.maxValue p
  /\ (0 <= RetirementChart.savings p ->
      0 <= RetirementChart.investments p ->
      0 <= RetirementChart.projectedSavings p ->
      0 <= RetirementChart.projectedInvestments p ->
      0 <= RetirementChart.savingsPercent p
      /\ 0 <= RetirementChart.investmentsPercent p
      /\ RetirementChart.savingsPercent p
         + RetirementChart.investmentsPercent p <= 100
      /\ 0 <= RetirementChart.projectedSavingsPercent p
      /\ 0 <= RetirementChart.projectedInvestmentsPercent p
      /\ RetirementChart.projectedSavingsPercent p
         + RetirementChart.projectedInvestmentsPercent p <= 100
      /\ (100000 <= RetirementChart.projectedSavings p
                    + RetirementChart.projectedInvestments p ->
          RetirementChart.savings p + RetirementChart.investments p
          <= RetirementChart.projectedSavings p
             + RetirementChart.projectedInvestments p ->
          RetirementChart.projectedSavingsPercent p
          + RetirementChart.projectedInvestmentsPercent p = 100)).
Proof.
  unfold RetirementChart.savingsPercent, RetirementChart.investmentsPercent,
    RetirementChart.projectedSavingsPercent,
    RetirementChart.projectedInvestmentsPercent.
  assert (Hmin : 100000 <= RetirementChart.maxValue p)
    by (unfold RetirementChart.maxValue, Math_max; apply Rmax_r).
  assert (Htoday : RetirementChart.savings p + RetirementChart.investments p
                   <= RetirementChart.maxValue p).
  { unfold RetirementChart.maxValue, Math_max.
    eapply Rle_trans; [apply Rmax_l | apply Rmax_l]. }
  assert (Hthen : RetirementChart.projectedSavings p
                  + RetirementChart.projectedInvestments p
                  <= RetirementChart.maxValue p).
  { unfold RetirementChart.maxValue, Math_max.
    eapply Rle_trans; [apply Rmax_r | apply Rmax_l]. }
  assert (Hfull : 100000 <= RetirementChart.projectedSavings p
                            + RetirementChart.projectedInvestments p ->
                  RetirementChart.savings p + RetirementChart.investments p
                  <= RetirementChart.projectedSavings p
                     + RetirementChart.projectedInvestments p ->
                  RetirementChart.maxValue p
                  = RetirementChart.projectedSavings p
                    + RetirementChart.projectedInvestments p).
  { intros H1 H2. unfold RetirementChart.maxValue, Math_max.
    rewrite (Rmax_right _ _ H2). apply Rmax_left. exact H1. }
  split; [exact Hmin |].
  intros Hs Hi Hps Hpi.
  generalize dependent (RetirementChart.maxValue p). intros M Hmin Ht Hth Hfull.
  assert (HM : 0 < / M) by (apply Rinv_0_lt_compat; lra).
  assert (Hone : M * / M = 1) by (apply Rinv_r; lra).
  unfold Rdiv.
  repeat split.
  - apply Rmult_le_pos; [apply Rmult_le_pos |]; lra.
  - apply Rmult_le_pos; [apply Rmult_le_pos |]; lra.
  - nra.
  - apply Rmult_le_pos; [apply Rmult_le_pos |]; lra.
  - apply Rmult_le_pos; [apply Rmult_le_pos |]; lra.
  - nra.
  - intros H1 H2.
    assert (Hfill : (RetirementChart.projectedSavings p
                     + RetirementChart.projectedInvestments p) * / M = 1)
      by (rewrite <- (Hfull H1 H2); exact Hone).
    lra.
Qed.

Lemma X21_bars_fit_witness :
  0 <= RetirementChart.savingsPercent (retirementChartProps lumpSum)
  /\ RetirementChart.savingsPercent (retirementChartProps lumpSum)
     + RetirementChart.investmentsPercent (retirementChartProps lumpSum)
     <= 100.
Proof.
  destruct (X21_bars_fit (retirementChartProps lumpSum)) as [_ Hfit].
  assert (Hps : 0 <= RetirementCalculator.projectedSavings lumpSum).
  { unfold RetirementCalculator.projectedSavings.
    apply Rle_trans with (RetirementCalculator.totalSavings lumpSum);
      [eval_totals; lra |].
    apply RetirementCalculator_calculateFutureValue_ge_principal;
      try (eval_totals; lra). }
  assert (Hpi : 0 <= RetirementCalculator.projectedInvestmentValue lumpSum).
  { unfold RetirementCalculator.projectedInvestmentValue.
    eapply Rle_trans;
      [| apply RetirementCalculator_calculateFutureValue_ge_principal];
      try (eval_totals; lra). }
  assert (Hs : 0 <= RetirementCalculator.totalSavings lumpSum)
    by (eval_totals; lra).
  assert (Hi : 0 <= RetirementCalculator.totalInvestments lumpSum
                    + RetirementCalculator.total401k lumpSum
                    + RetirementCalculator.totalRothIRA lumpSum)
    by (eval_totals; lra).
  destruct (Hfit Hs Hi Hps Hpi) as (H1 & _ & H3 & _).
  split; assumption.
Defined.

(** ** Saved state *)

(** X22.  Saving a state and loading it again gives the same state back
    exactly when neither age and none of the three rates is zero: a zero is
    read back as the default (30, 65, 5, 2, 4), so a growth rate set to 0%
    comes back as 5% or 2%.  And whatever is stored, no age and no rate of
    the loaded state is ever zero. *)
Theorem X22_saved_state_round_trip (d : RetirementCalculator.RetirementData) :
  (RetirementCalculator.loadInitialState
     (RetirementCalculator.Parsed (RetirementCalculator.dataToSave d)) = d
   <-> RetirementCalculator.currentAge d <> 0%Z
       /\ RetirementCalculator.retirementAge d <> 0%Z
       /\ RetirementCalculator.investmentRate d <> 0
       /\ RetirementCalculator.savingsRate d <> 0
       /\ RetirementCalculator.withdrawalRate d <> 0)
  /\ forall item,
      let loaded := RetirementCalculator.loadInitialState item in
      RetirementCalculator.currentAge loaded <> 0%Z
      /\ RetirementCalculator.retirementAge loaded <> 0%Z
      /\ RetirementCalculator.investmentRate loaded <> 0
      /\ RetirementCalculator.savingsRate loaded <> 0
      /\ RetirementCalculator.withdrawalRate loaded <> 0.
Proof.
  assert (HZ : forall x dflt, dflt <> 0%Z ->
                              RetirementCalculator.orZ x dflt <> 0%Z).
  { intros [v |] dflt Hd; simpl; [| exact Hd].
    destruct (Z.eqb_spec v 0); assumption. }
  assert (HR : forall x dflt, dflt <> 0 ->
                              RetirementCalculator.orR x dflt <> 0).
  { intros [v |] dflt Hd; simpl; [| exact Hd].
    destruct (Req_dec_T v 0); assumption. }
  assert (HZs : forall v dflt, dflt <> 0%Z ->
                  (RetirementCalculator.orZ (Some v) dflt = v <-> v <> 0%Z)).
  { intros v dflt Hd. simpl. destruct (Z.eqb_spec v 0) as [-> | Hne].
    - split; [intros H; contradiction | intros H; contradiction].
    - split; [intros _; exact Hne | reflexivity]. }
  assert (HRs : forall v dflt, dflt <> 0 ->
                  (RetirementCalculator.orR (Some v) dflt = v <-> v <> 0)).
  { intros v dflt Hd. simpl. destruct (Req_dec_T v 0) as [-> | Hne].
    - split; [intros H; contradiction | intros H; contradiction].
    - split; [intros _; exact Hne | reflexivity]. }
  split.
  - destruct d as [accs ca ra ir sr wr]. simpl.
    split.
    + intros Heq. injection Heq as H1 H2 H3 H4 H5.
      repeat split.
      * apply (HZs ca 30%Z); [lia | exact H1].
      * apply (HZs ra 65%Z); [lia | exact H2].
      * apply (HRs ir 5); [lra | exact H3].
      * apply (HRs sr 2); [lra | exact H4].
      * apply (HRs wr 4); [lra | exact H5].
    + intros (H1 & H2 & H3 & H4 & H5).
      f_equal.
      * apply (HZs ca 30%Z); [lia | exact H1].
      * apply (HZs ra 65%Z); [lia | exact H2].
      * apply (HRs ir 5); [lra | exact H3].
      * apply (HRs sr 2); [lra | exact H4].
      * apply (HRs wr 4); [lra | exact H5].
  - intros [| | parsed]; simpl;
      repeat split; try lia; try lra; try (apply HZ; lia); apply HR; lra.
Qed.

Lemma X22_saved_state_round_trip_witness :
  RetirementCalculator.loadInitialState
    (RetirementCalculator.Parsed (RetirementCalculator.dataToSave noGrowth))
  <> noGrowth
  /\ RetirementCalculator.loadInitialState
       (RetirementCalculator.Parsed (RetirementCalculator.dataToSave planner))
     = planner.
Proof.
  split.
  - intros Heq.
    apply (proj1 (proj1 (X22_saved_state_round_trip noGrowth))) in Heq.
    destruct Heq as (_ & _ & Hir & _). apply Hir. reflexivity.
  - apply (proj2 (proj1 (X22_saved_state_round_trip planner))).
    simpl. repeat split; try lia; lra.
Defined.

(** ** The statistics under the chart *)

(** X23.  Whenever the chart is rendered for a non-negative current age, the
    figure it labels "Projected at {retirementAge}" is the total of the last
    row of the series, the row at year offset [maxAge], whose age lies
    beyond the retirement age: it is never the row of the retirement
    year. *)
Theorem X23_projected_stat_is_last_row
        (p : GrowthProjection.GrowthProjectionProps)
        (projected totalGrowth : GrowthProjection.num) :
  (0 <= GrowthProjection.currentAge p)%Z ->
  GrowthProjection.render p = GrowthProjection.Stats projected totalGrowth ->
  exists rows last,
    GrowthProjection.generateProjections p = Some rows
    /\ nth_error rows (Z.to_nat (GrowthProjection.maxAge p)) = Some last
    /\ GrowthProjection.total last = projected
    /\ GrowthProjection.year last = GrowthProjection.maxAge p
    /\ (GrowthProjection.retirementAge p < GrowthProjection.age last)%Z.
Proof.
  intros Hage Hrender. unfold GrowthProjection.render in Hrender.
  destruct (GrowthProjection.generateProjections p) as [rows |] eqn:Hgen;
    [| discriminate].
  destruct (Req_dec_T (GrowthProjection.totalAmount p) 0); [discriminate |].
  destruct (nth_error rows (List.length rows - 1)) as [last |] eqn:Hlast;
    [| discriminate].
  injection Hrender as Htotal _.
  assert (Hrows : List.length rows = Z.to_nat (GrowthProjection.maxAge p + 1)
                  /\ forall n r, nth_error rows n = Some r ->
                                 GrowthProjection.year r = Z.of_nat n
                                 /\ GrowthProjection.age r
                                    = (GrowthProjection.currentAge p
                                       + Z.of_nat n)%Z).
  { destruct (Z_lt_ge_dec (GrowthProjection.yearsToRetirement p) 0)
      as [Hlt | Hge];
      [destruct (Z_le_gt_dec 0 (GrowthProjection.maxAge p)) as [Hmax | Hmax] |].
    - rewrite generateProjections_raises in Hgen by assumption. discriminate.
    - destruct (generateProjections_rows p) as (rows' & Hsome & Hlen & Hyears);
        [right; lia |].
      rewrite Hsome in Hgen. injection Hgen as <-. split; assumption.
    - destruct (generateProjections_rows p) as (rows' & Hsome & Hlen & Hyears);
        [left; lia |].
      rewrite Hsome in Hgen. injection Hgen as <-. split; assumption. }
  destruct Hrows as [Hlen Hyears].
  assert (Hne : (1 <= List.length rows)%nat).
  { destruct rows; [discriminate | simpl; lia]. }
  assert (Hidx : (List.length rows - 1)%nat
                 = Z.to_nat (GrowthProjection.maxAge p)) by lia.
  rewrite Hidx in Hlast.
  exists rows, last. split; [reflexivity |]. split; [exact Hlast |].
  split; [exact Htotal |].
  destruct (Hyears _ _ Hlast) as [Hyear Hagerow].
  assert (Hmax : (0 <= GrowthProjection.maxAge p)%Z) by lia.
  split; [rewrite Hyear; lia |].
  rewrite Hagerow. unfold GrowthProjection.maxAge in *. lia.
Qed.

Lemma X23_projected_stat_is_last_row_witness :
  exists projected totalGrowth rows last,
    GrowthProjection.render plannerChart
    = GrowthProjection.Stats projected totalGrowth
    /\ GrowthProjection.generateProjections plannerChart = Some rows
    /\ nth_error rows 66 = Some last
    /\ GrowthProjection.total last = projected
    /\ (65 < GrowthProjection.age last)%Z.
Proof.
  destruct (generateProjections_rows plannerChart)
    as (rows & Hgen & Hlen & _);
    [left; unfold GrowthProjection.yearsToRetirement; simpl; lia |].
  assert (Hlong : List.length rows = 67%nat) by (rewrite Hlen; reflexivity).
  destruct (nth_error rows 66) as [last |] eqn:Hlast;
    [| apply nth_error_None in Hlast; lia].
  assert (Hrender : GrowthProjection.render plannerChart
                    = GrowthProjection.Stats
                        (GrowthProjection.total last)
                        (match GrowthProjection.total last with
                         | Some t =>
                             Some (t - GrowthProjection.totalAmount
                                         plannerChart)
                         | None => None
                         end)).
  { unfold GrowthProjection.render. rewrite Hgen, Hlong.
    change (67 - 1)%nat with 66%nat. rewrite Hlast.
    destruct (Req_dec_T (GrowthProjection.totalAmount plannerChart) 0)
      as [Hz | _]; [| reflexivity].
    exfalso. revert Hz. unfold GrowthProjection.totalAmount. simpl.
    eval_totals. lra. }
  destruct (X23_projected_stat_is_last_row plannerChart _ _ ltac:(simpl; lia)
                                           Hrender)
    as (rows' & last' & Hgen' & Hlast' & Htotal & _ & Hage).
  rewrite Hgen in Hgen'. injection Hgen' as <-.
  change (Z.to_nat (GrowthProjection.maxAge plannerChart)) with 66%nat
    in Hlast'.
  rewrite Hlast in Hlast'. injection Hlast' as <-.
  eexists. eexists. exists rows, last.
  split; [exact Hrender |]. split; [exact Hgen |]. split; [exact Hlast |].
  split; [reflexivity | exact Hage].
Defined.

(** ** Contributions shown in the table *)



(** * Claims that rest on the row-by-row lemmas *)

Section DecumulationRows.

Import RetirementCalculator.

(** C10.  A decumulation row (year offset above the years to retirement)
    starts from the combined balance the loop has reached, which is the
    closing balance of the row before it (the two principals for row 0); it
    reports the unclamped annual withdrawal as retirement income and pays
    out the withdrawal clamped by that pre-withdrawal balance.  So the
    income is never below the payout, and strictly above it when the
    pre-withdrawal balance is below the annual withdrawal. *)
Theorem C10_income_unclamped_payout_clamped (d : RetirementData)
        (n : nat) (r : Row) :
  nth_error (simulateYearly d) n = Some r ->
  (yearsToRetirement d < Z.of_nat n)%Z ->
  let before :=
    balancesAfter d n 0 (totalSavings d)
                  (totalInvestments d + total401k d + totalRothIRA d) in
  year r = Z.of_nat n
  /\ salaryBasis r = fst before + snd before
  /\ (n = O ->
      salaryBasis r
      = totalSavings d + (totalInvestments d + total401k d + totalRothIRA d))
  /\ (forall m r', n = S m -> nth_error (simulateYearly d) m = Some r' ->
                   salaryBasis r = balance r')
  /\ retirementIncome r = annualWithdrawal d
  /\ payout r = Math_min (fst before + snd before) (annualWithdrawal d)
  /\ payout r <= retirementIncome r
  /\ (fst before + snd before < annualWithdrawal d ->
      payout r < retirementIncome r).
Proof.
  intros Hn Hpost before.
  pose proof (simulateYearly_nth d n r Hn) as Hr. fold before in Hr.
  destruct (simulateYearly_nth_year d n r Hn) as [Hyear _].
  destruct (loopBody_year d (Z.of_nat n) (fst before) (snd before))
    as (_ & _ & Hbasis).
  destruct (loopBody_decumulation d (Z.of_nat n) (fst before) (snd before)
                                  Hpost) as (_ & Hp & Hi & _).
  rewrite <- Hr in Hbasis, Hp, Hi.
  split; [exact Hyear |]. split; [exact Hbasis |].
  split.
  { intros ->. rewrite Hbasis. reflexivity. }
  split.
  { intros m r' -> Hm. apply (simulateYearly_chain d m r' r Hm Hn). }
  split; [exact Hi |]. split; [exact Hp |].
  rewrite Hp, Hi. unfold Math_min. split.
  - apply Rmin_r.
  - intros Hlow. rewrite Rmin_left by lra. exact Hlow.
Qed.

Lemma C10_income_unclamped_payout_clamped_witness :
  exists r,
    nth_error (simulateYearly depleted) 0 = Some r
    /\ salaryBasis r = 0
    /\ retirementIncome r = 48
    /\ payout r = 0
    /\ payout r < retirementIncome r.
Proof.
  destruct (nth_error_simulateYearly_defined depleted 0) as [r E];
    [vm_compute; discriminate |].
  exists r. split; [exact E |].
  destruct (C10_income_unclamped_payout_clamped depleted 0 r E)
    as (_ & _ & Hstart & _ & Hi & Hp & _ & Hlt);
    [vm_compute; reflexivity |].
  specialize (Hstart eq_refl).
  cbn [balancesAfter fst snd] in Hp, Hlt.
  rewrite annualWithdrawal_depleted in Hi, Hp, Hlt.
  assert (Hzero : totalSavings depleted
                  + (totalInvestments depleted + total401k depleted
                     + totalRothIRA depleted) = 0)
    by (eval_totals; lra).
  rewrite Hzero in Hstart, Hp, Hlt.
  split; [exact Hstart |]. split; [exact Hi |].
  split; [rewrite Hp; unfold Math_min; apply Rmin_left; lra |].
  apply Hlt. lra.
Defined.

End DecumulationRows.

Section ChartBalance.

Import GrowthProjection.

(** A withdrawal that covers the previous total leaves a total of zero. *)
Lemma postRetirementRow_emptied (p : GrowthProjectionProps) (y : Z)
      (previousYear : Projection) (t s i : R) :
  total previousYear = Some t -> savings previousYear = Some s ->
  investments previousYear = Some i ->
  t <> 0 ->
  t <= withDefault 0 (projectedAtRetirement p)
       * (withDefault 4 (withdrawalRate p) / 100) ->
  total (postRetirementRow p y previousYear) = Some 0.
Proof.
  intros Ht Hs Hi Hne Haw. unfold postRetirementRow. rewrite Ht, Hs, Hi.
  destruct (Req_dec_T t 0) as [Hz | _]; [contradiction |].
  assert (Hmax : Math_max 0 (t - withDefault 0 (projectedAtRetirement p)
                                 * (withDefault 4 (withdrawalRate p) / 100))
                 = 0)
    by (unfold Math_max; apply Rmax_left; lra).
  simpl. rewrite Hmax, Rmult_0_l, Math_round_0. reflexivity.
Qed.

(** C3 (the chart series breaks it).  For 1000 in savings, 1000 a month,
    retirement at the current age of 65 and 8% withdrawn, all inputs
    non-negative, [generateProjections] clamps the balance of row 1 to zero
    and then divides by that zero total: the total of row 2 is not a
    number, hence not a balance of zero or more. *)
Theorem C3_chart_total_not_a_number :
  0 <= currentSavings earlyRetireeChart
  /\ 0 <= currentInvestments earlyRetireeChart
  /\ 0 <= monthlySavings earlyRetireeChart
  /\ 0 <= monthlyInvestment earlyRetireeChart
  /\ 0 <= savingsGrowthRate earlyRetireeChart
  /\ 0 <= investmentGrowthRate earlyRetireeChart
  /\ exists rows r0 r1 r2,
      generateProjections earlyRetireeChart = Some rows
      /\ nth_error rows 0 = Some r0 /\ total r0 = Some 1000
      /\ nth_error rows 1 = Some r1 /\ total r1 = Some 0
      /\ nth_error rows 2 = Some r2 /\ total r2 = None.
Proof.
  assert (Hcs : currentSavings earlyRetireeChart = 1000)
    by (simpl; eval_totals; lra).
  assert (Hci : currentInvestments earlyRetireeChart = 0)
    by (simpl; eval_totals; lra).
  split; [lra |]. split; [lra |].
  split; [unfold monthlySavings; simpl; eval_totals; lra |].
  split; [unfold monthlyInvestment; simpl; eval_totals; lra |].
  split; [unfold savingsGrowthRate; simpl; lra |].
  split; [unfold investmentGrowthRate; simpl; lra |].
  destruct (generateProjections_rows earlyRetireeChart)
    as (rows & Hgen & Hlen & _);
    [left; unfold yearsToRetirement; simpl; lia |].
  assert (Hlong : List.length rows = 67%nat) by (rewrite Hlen; reflexivity).
  destruct (nth_error rows 0) as [r0 |] eqn:E0;
    [| apply nth_error_None in E0; lia].
  destruct (nth_error rows 1) as [r1 |] eqn:E1;
    [| apply nth_error_None in E1; lia].
  destruct (nth_error rows 2) as [r2 |] eqn:E2;
    [| apply nth_error_None in E2; lia].
  exists rows, r0, r1, r2. split; [exact Hgen |].
  assert (Hr0 : r0 = preRetirementRow earlyRetireeChart 0).
  { destruct (generateProjections_row earlyRetireeChart rows 0 r0 Hgen E0)
      as [[_ H] | [Hpost _]]; [exact H |].
    unfold yearsToRetirement in Hpost. simpl in Hpost. lia. }
  assert (Ht0 : total r0 = Some 1000).
  { rewrite Hr0. unfold preRetirementRow. cbn [total].
    rewrite !GrowthProjection_calculateFutureValue_nonpos by (simpl; lra).
    rewrite Hcs, Hci. replace (1000 + 0) with 1000 by ring.
    rewrite Math_round_IZR. reflexivity. }
  assert (Hr1 : r1 = postRetirementRow earlyRetireeChart 1 r0).
  { destruct (generateProjections_row earlyRetireeChart rows 1 r1 Hgen E1)
      as [[Hpre _] | (_ & prev & _ & Hprev & H)].
    - unfold yearsToRetirement in Hpre. simpl in Hpre. lia.
    - change (1 - 1)%nat with 0%nat in Hprev.
      rewrite E0 in Hprev. injection Hprev as <-. exact H. }
  assert (Ht1 : total r1 = Some 0).
  { rewrite Hr1.
    apply (postRetirementRow_emptied earlyRetireeChart 1 r0 1000
             (Math_round (calculateFutureValue
                            (currentSavings earlyRetireeChart)
                            (monthlySavings earlyRetireeChart)
                            (savingsGrowthRate earlyRetireeChart) (IZR 0)))
             (Math_round (calculateFutureValue
                            (currentInvestments earlyRetireeChart)
                            (monthlyInvestment earlyRetireeChart)
                            (investmentGrowthRate earlyRetireeChart) (IZR 0)))).
    - exact Ht0.
    - rewrite Hr0. reflexivity.
    - rewrite Hr0. reflexivity.
    - lra.
    - cbn [projectedAtRetirement withdrawalRate earlyRetireeChart
             growthProjectionProps withDefault].
      rewrite projectedTotal_nonpos_years by (simpl; lia).
      eval_totals. lra. }
  assert (Hr2 : r2 = postRetirementRow earlyRetireeChart 2 r1).
  { destruct (generateProjections_row earlyRetireeChart rows 2 r2 Hgen E2)
      as [[Hpre _] | (_ & prev & _ & Hprev & H)].
    - unfold yearsToRetirement in Hpre. simpl in Hpre. lia.
    - change (2 - 1)%nat with 1%nat in Hprev.
      rewrite E1 in Hprev. injection Hprev as <-. exact H. }
  repeat (split; [first [reflexivity | assumption] |]).
  rewrite Hr2.
  apply (postRetirementRow_nonfinite earlyRetireeChart 2 r1).
  left. exact Ht1.
Qed.

End ChartBalance.
